(** * Blog API: a shallow embedding of [main.py] and [schemas.py]

    The service is a thin FastAPI layer over a MongoDB collection.  The
    handlers are embedded as computations in a state-and-exception monad over
    a [World] that holds everything a handler can observe or change: the
    database handle, the process environment, the clock, and the behaviour
    of the driver (which calls fail, which identifiers it generates).
    Every call that reaches the driver is recorded in a trace. *)

From Stdlib Require Import ZArith.
From stdpp Require Import gmap strings list sorting.

Local Open Scope Z_scope.
Local Open Scope string_scope.

(** ** The identifier type of the store

    [bson.ObjectId] is a library type.  The handlers use three things of it:
    the constructor applied to a path parameter (which raises on a malformed
    string), [str], and equality.  Nothing else is assumed. *)

Class Bson := {
  oid : Type;
  oid_eq_dec :: EqDecision oid;
  ObjectId_of_str : string -> option oid;   (* [None]: [ObjectId(s)] raises *)
  oid_str : oid -> string                   (* [str(oid)] *)
}.

(** [datetime] values; only their order matters (for [sort]). *)
Definition datetime := Z.

(** ** Python values, dictionaries and exceptions *)

Section Model.
Context `{B : Bson}.

(** The values that occur in documents, payload dumps and filters. *)
Inductive value :=
| VNull                       (* None *)
| VBool (b : bool)
| VStr (s : string)
| VDate (t : datetime)
| VList (l : list string)     (* List[str] *)
| VOid (o : oid)
| VUrl (u : string).          (* pydantic's Url object, with its text *)

#[export] Instance value_eq_dec : EqDecision value.
Proof. solve_decision. Defined.

(** Python truthiness of the value found under a key ([d.get(k)] in a
    condition); a missing key gives [None], which is falsy. *)
Definition truthy (v : option value) : bool :=
  match v with
  | Some (VBool b) => b
  | Some (VStr s) => negb (String.eqb s "")
  | Some (VList l) => match l with [] => false | _ => true end
  | Some (VDate _) => true
  | Some (VOid _) => true
  | Some (VUrl _) => true
  | Some VNull | None => false
  end.

(** [d.setdefault(k, v)]: the key is written only when it is absent; a key
    present with value [None] is present. *)
Definition setdefault (k : string) (v : value) (d : gmap string value)
  : gmap string value :=
  match d !! k with
  | Some _ => d
  | None => <[k := v]> d
  end.

(** A stored document: the identifier the store assigned and the fields. *)
Record Doc := mkDoc { _id : oid; fields : gmap string value }.

(** [doc.get(k)] on a document read from the store. *)
Definition doc_get (d : Doc) (k : string) : option value :=
  if decide (k = "_id") then Some (VOid (_id d)) else fields d !! k.

(** Exceptions.  [HTTPException] is FastAPI's; every other exception
    (driver errors, [bson.errors.InvalidId], pydantic's [ValidationError],
    [TypeError], ...) is a [PyExc] with its class name and [str(e)]. *)
Inductive exn :=
| HTTPException (status_code : Z) (detail : string)
| PyExc (cls : string) (msg : string).

Inductive Result (A : Type) :=
| Ok (a : A)
| Raise (e : exn).
Global Arguments Ok {A} a.
Global Arguments Raise {A} e.

(** The status the framework answers with: 200 for a returned value, the
    status of an [HTTPException], 500 for any other exception. *)
Definition http_status {A} (r : Result A) : Z :=
  match r with
  | Ok _ => 200
  | Raise (HTTPException c _) => c
  | Raise (PyExc _ _) => 500
  end.

(** ** Filters of the store *)

(** The two filter forms the handlers build: [{k: v}] and [{k: {"$in": vs}}]. *)
Inductive cond :=
| CEq (v : value)
| CIn (vs : list value).

#[export] Instance cond_eq_dec : EqDecision cond.
Proof. solve_decision. Defined.

(** A value [v] of the filter meets the value stored under the key: equal to
    it, or an element of it when an array is stored; a missing field compares
    as null. *)
Definition value_meets (v : value) (stored : option value) : bool :=
  match stored with
  | None => bool_decide (v = VNull)
  | Some (VList l) =>
      bool_decide (v = VList l)
      || match v with VStr s => bool_decide (s ∈ l) | _ => false end
  | Some w => bool_decide (v = w)
  end.

Definition cond_holds (c : cond) (stored : option value) : bool :=
  match c with
  | CEq v => value_meets v stored
  | CIn vs => existsb (fun v => value_meets v stored) vs
  end.

(** A document matches a filter when every key of the filter holds. *)
Definition matches (q : gmap string cond) (d : Doc) : bool :=
  bool_decide (map_Forall (fun k c => cond_holds c (doc_get d k) = true) q).

(** ** The world a handler runs in *)

(** The calls a handler makes on the driver, with their arguments. *)
Inductive call :=
| Find (collection : string) (q : gmap string cond)
       (sort_key : string) (direction : Z) (limit : Z)
| FindOne (collection : string) (q : gmap string cond)
| InsertOne (collection : string) (data : gmap string value)
| UpdateOne (collection : string) (q : gmap string cond)
            (set : gmap string value)
| DeleteOne (collection : string) (q : gmap string cond)
| ListCollectionNames.

(** A database: its name (when the handle has that attribute) and its
    collections, each a sequence of documents in insertion order. *)
Record Database := mkDatabase {
  name : option string;
  collections : gmap string (list Doc)
}.

Record World := mkWorld {
  db : option Database;             (* [database.db]; [None] when not set up *)
  DATABASE_URL : option string;     (* [os.getenv("DATABASE_URL")] *)
  utcnow_at : nat -> datetime;      (* the n-th reading of the clock *)
  ticks : nat;                      (* readings taken so far *)
  fails_at : nat -> option string;  (* the n-th driver call raises [msg] *)
  new_oid_at : nat -> oid;          (* the identifier generated by call n *)
  trace : list call                 (* the driver calls made so far *)
}.

Definition set_db (d : option Database) (w : World) : World :=
  mkWorld d (DATABASE_URL w) (utcnow_at w) (ticks w) (fails_at w)
          (new_oid_at w) (trace w).

Definition set_ticks (n : nat) (w : World) : World :=
  mkWorld (db w) (DATABASE_URL w) (utcnow_at w) n (fails_at w)
          (new_oid_at w) (trace w).

Definition set_trace (t : list call) (w : World) : World :=
  mkWorld (db w) (DATABASE_URL w) (utcnow_at w) (ticks w) (fails_at w)
          (new_oid_at w) t.

(** The documents of a collection; a collection that does not exist yet
    reads as empty. *)
Definition docs_of (d : Database) (collection : string) : list Doc :=
  default [] (collections d !! collection).

Definition stored (w : World) (collection : string) : list Doc :=
  match db w with
  | Some d => docs_of d collection
  | None => []
  end.

(** ** Handlers as computations *)

(** State passing with exceptions.  A raised exception keeps the state
    reached so far: nothing is rolled back. *)
Definition M (A : Type) : Type := World -> Result A * World.

Definition ret {A} (a : A) : M A := fun w => (Ok a, w).

Definition raise {A} (e : exn) : M A := fun w => (Raise e, w).

Definition bind {A C} (m : M A) (k : A -> M C) : M C :=
  fun w =>
    match m w with
    | (Ok a, w') => k a w'
    | (Raise e, w') => (Raise e, w')
    end.

(** [try: body except Exception as e: handler(e)]. *)
Definition try_except {A} (body : M A) (handler : exn -> M A) : M A :=
  fun w =>
    match body w with
    | (Ok a, w') => (Ok a, w')
    | (Raise e, w') => handler e w'
    end.

End Model.

Declare Scope py_scope.
Delimit Scope py_scope with py.
Notation "x <- m ;; k" := (bind m (fun x => k))
  (at level 100, m at next level, right associativity) : py_scope.
Notation "m ;;; k" := (bind m (fun _ => k))
  (at level 100, right associativity) : py_scope.

(** ** Schemas ([schemas.py], and the models declared in [main.py]) *)

(** [BlogPost], which is also [BlogPostCreate]: a payload that passed
    validation.  [excerpt], [cover_image_url] and [published_at] are
    [Optional]; a value left out of the request and an explicit null both
    read as [None] in [model_dump()].  [cover_image_url] is declared
    [Optional[HttpUrl]]: the record holds the text of the URL, the model
    holds a Url object made from it. *)
Module BlogPost.
Record t := mk {
  title : string;
  slug : string;
  excerpt : option string;
  content : string;
  author : string;
  cover_image_url : option string;
  tags : list string;
  published : bool;
  published_at : option datetime
}.

(** The constructor called with the required fields only: every other
    field takes its declared default. *)
Definition new (title slug content author : string) : t :=
  mk title slug None content author None [] false None.

(** The [Field] constraints: [min_length=3] on [title] and [slug]. *)
Definition valid (p : t) : Prop :=
  (3 <= String.length (title p))%nat /\ (3 <= String.length (slug p))%nat.
End BlogPost.

(** [BlogPostUpdate]: every field is [Optional] with default [None], and
    the model remembers which fields the request body set.  The outer
    [option] is that memory ([None]: not set), the inner one the value
    ([Some None]: set to null). *)
Module BlogPostUpdate.
Record t := mk {
  title : option (option string);
  slug : option (option string);
  excerpt : option (option string);
  content : option (option string);
  author : option (option string);
  cover_image_url : option (option string);
  tags : option (option (list string));
  published : option (option bool);
  published_at : option (option datetime)
}.

(** The model built from the body [{}]. *)
Definition unset : t := mk None None None None None None None None None.
End BlogPostUpdate.

(** [BlogPostOut], the response model. *)
Module BlogPostOut.
Record t := mk {
  id : string;
  title : string;
  slug : string;
  excerpt : option string;
  content : string;
  author : string;
  cover_image_url : option string;
  tags : list string;
  published : bool;
  published_at : option datetime;
  created_at : option datetime;
  updated_at : option datetime
}.
End BlogPostOut.

Section Service.
Context `{B : Bson}.
Local Open Scope py_scope.

(** *** Dumps of the payload models *)

Definition opt_value {A} (f : A -> value) (o : option A) : value :=
  match o with
  | Some a => f a
  | None => VNull
  end.

(** [payload.model_dump()] of a [BlogPost]: all nine fields, as Python
    values; the cover image stays the Url object of the model. *)
Definition model_dump (p : BlogPost.t) : gmap string value :=
  list_to_map
    [ ("title", VStr (BlogPost.title p));
      ("slug", VStr (BlogPost.slug p));
      ("excerpt", opt_value VStr (BlogPost.excerpt p));
      ("content", VStr (BlogPost.content p));
      ("author", VStr (BlogPost.author p));
      ("cover_image_url", opt_value VUrl (BlogPost.cover_image_url p));
      ("tags", VList (BlogPost.tags p));
      ("published", VBool (BlogPost.published p));
      ("published_at", opt_value VDate (BlogPost.published_at p)) ].

(** Writes [k] when the field was set. *)
Definition put {A} (k : string) (f : A -> value) (o : option (option A))
    (d : gmap string value) : gmap string value :=
  match o with
  | Some v => <[k := opt_value f v]> d
  | None => d
  end.

(** [payload.model_dump(exclude_unset=True)] of a [BlogPostUpdate]: the
    fields the body set, an explicit null included. *)
Definition model_dump_exclude_unset (p : BlogPostUpdate.t)
  : gmap string value :=
  put "title" VStr (BlogPostUpdate.title p)
  (put "slug" VStr (BlogPostUpdate.slug p)
  (put "excerpt" VStr (BlogPostUpdate.excerpt p)
  (put "content" VStr (BlogPostUpdate.content p)
  (put "author" VStr (BlogPostUpdate.author p)
  (put "cover_image_url" VStr (BlogPostUpdate.cover_image_url p)
  (put "tags" VList (BlogPostUpdate.tags p)
  (put "published" VBool (BlogPostUpdate.published p)
  (put "published_at" VDate (BlogPostUpdate.published_at p) ∅)))))))).

(** *** The clock, the identifier constructor and the driver *)

(** [datetime.utcnow()]. *)
Definition utcnow : M datetime :=
  fun w => (Ok (utcnow_at w (ticks w)), set_ticks (S (ticks w)) w).

(** [ObjectId(s)]. *)
Definition ObjectId (s : string) : M oid :=
  match ObjectId_of_str s with
  | Some o => ret o
  | None => raise (PyExc "InvalidId" s)
  end.

(** One call on the driver through the handle [db].  With [db] being
    [None] the expression [db[...]] raises before any call is made.
    Otherwise the call is recorded; it either raises, leaving the database
    as it is, or runs. *)
Definition driver {A} (c : call) (run : oid -> Database -> A * Database)
  : M A :=
  fun w =>
    match db w with
    | None =>
        (Raise (PyExc "TypeError" "'NoneType' object is not subscriptable"), w)
    | Some d =>
        let n := length (trace w) in
        let w1 := set_trace (trace w ++ [c]) w in
        match fails_at w n with
        | Some msg => (Raise (PyExc "PyMongoError" msg), w1)
        | None =>
            let '(a, d') := run (new_oid_at w n) d in
            (Ok a, set_db (Some d') w1)
        end
    end.

Definition set_docs (collection : string) (ds : list Doc) (d : Database)
  : Database :=
  mkDatabase (name d) (<[collection := ds]> (collections d)).

(** *** The storage accessor *)

(** The key a cursor sorts on: a date, or nothing (missing or null), which
    orders below every date. *)
Definition sort_value (k : string) (d : Doc) : option datetime :=
  match doc_get d k with
  | Some (VDate t) => Some t
  | _ => None
  end.

Definition date_le (a b : option datetime) : Prop :=
  match a, b with
  | None, _ => True
  | Some _, None => False
  | Some x, Some y => (x <= y)%Z
  end.

#[export] Instance date_le_dec a b : Decision (date_le a b).
Proof. destruct a, b; simpl; apply _. Defined.

(** [cursor.sort(k, direction)]: descending for a negative direction. *)
Definition cursor_sort (k : string) (direction : Z) (ds : list Doc)
  : list Doc :=
  if (direction <? 0)%Z
  then merge_sort (fun d1 d2 => date_le (sort_value k d2) (sort_value k d1)) ds
  else merge_sort (fun d1 d2 => date_le (sort_value k d1) (sort_value k d2)) ds.

(** [cursor.limit(n)]: at most [n] results; the driver reads a limit of 0
    as no limit and a negative limit as its absolute value. *)
Definition cursor_limit (n : Z) (ds : list Doc) : list Doc :=
  if (n =? 0)%Z then ds else take (Z.abs_nat n) ds.

(** [$set]: the named fields are written, the others stay. *)
Definition apply_set (set : gmap string value) (d : Doc) : Doc :=
  mkDoc (_id d) (set ∪ fields d).

(** The first document matching [q] is replaced; [None] when none matches. *)
Fixpoint update_first (q : gmap string cond) (set : gmap string value)
    (ds : list Doc) : option (list Doc) :=
  match ds with
  | [] => None
  | d :: ds' =>
      if matches q d then Some (apply_set set d :: ds')
      else cons d <$> update_first q set ds'
  end.

(** The first document matching [q] is removed; [None] when none matches. *)
Fixpoint delete_first (q : gmap string cond) (ds : list Doc)
  : option (list Doc) :=
  match ds with
  | [] => None
  | d :: ds' =>
      if matches q d then Some ds' else cons d <$> delete_first q ds'
  end.

(** Modelled from the spec: the operations of the handle [db] of module
    [database], which is not among the sources.  Section 4.2 names them:
    find-many with a filter mapping and a result cap, find-one, update-one
    with [$set] semantics (only named fields change), delete-one.  This one
    is [db[collection].find(q).sort(sort_key, direction).limit(limit)]. *)
Definition find (collection : string) (q : gmap string cond)
    (sort_key : string) (direction limit : Z) : M (list Doc) :=
  driver (Find collection q sort_key direction limit)
    (fun _ d =>
       (cursor_limit limit
          (cursor_sort sort_key direction
             (List.filter (matches q) (docs_of d collection))), d)).

(** Modelled from the spec: [db[collection].find_one(q)], the first
    document matching [q], or [None]. *)
Definition find_one (collection : string) (q : gmap string cond)
  : M (option Doc) :=
  driver (FindOne collection q)
    (fun _ d => (List.find (matches q) (docs_of d collection), d)).

(** Modelled from the spec: [db[collection].update_one(q, {"$set": set})];
    the result is [matched_count]. *)
Definition update_one (collection : string) (q : gmap string cond)
    (set : gmap string value) : M Z :=
  driver (UpdateOne collection q set)
    (fun _ d =>
       match update_first q set (docs_of d collection) with
       | Some ds => (1%Z, set_docs collection ds d)
       | None => (0%Z, d)
       end).

(** Modelled from the spec: [db[collection].delete_one(q)]; the result is
    [deleted_count]. *)
Definition delete_one (collection : string) (q : gmap string cond) : M Z :=
  driver (DeleteOne collection q)
    (fun _ d =>
       match delete_first q (docs_of d collection) with
       | Some ds => (1%Z, set_docs collection ds d)
       | None => (0%Z, d)
       end).

(** Modelled from the spec: [db.list_collection_names()]. *)
Definition list_collection_names : M (list string) :=
  driver ListCollectionNames
    (fun _ d => ((map_to_list (collections d)).*1, d)).

(** The values the driver can encode into a document: every one but a Url
    object. *)
Definition is_url (v : value) : bool :=
  match v with
  | VUrl _ => true
  | _ => false
  end.

Definition bson_encodable (data : gmap string value) : bool :=
  bool_decide (map_Forall (fun _ v => is_url v = false) data).

(** Modelled from the spec: [create_document] of module [database], which is
    not among the sources: insert-one, returning the generated identifier.
    The document is stored as given, at the end of the collection.  A
    dictionary the driver cannot encode is not stored: the call raises
    [bson.errors.InvalidDocument].  (Of the dictionaries the handlers hand
    to the driver only the one of [create_post] can hold a Url object.) *)
Definition create_document (collection : string) (data : gmap string value)
  : M oid :=
  if bson_encodable data
  then
    driver (InsertOne collection data)
      (fun o d =>
         (o, set_docs collection (docs_of d collection ++ [mkDoc o data]) d))
  else
    bind (driver (InsertOne collection data) (fun _ d => (tt, d)))
      (fun _ => raise (PyExc "InvalidDocument" "cannot encode object")).

End Service.

Section Handlers.
Context `{B : Bson}.
Local Open Scope py_scope.

(** ** Serialization ([serialize_post]) *)

Definition lift {A} (r : Result A) : M A := fun w => (r, w).

(** Building a [BlogPostOut] validates every argument against the declared
    type of its field; a value of another type raises pydantic's
    [ValidationError].  (Pydantic's coercions of wrongly typed values are
    left out: no operation of the service writes such values.) *)
Definition invalid {A} : Result A :=
  Raise (PyExc "ValidationError" "BlogPostOut").

Definition as_str (v : option value) : Result string :=
  match v with
  | Some (VStr s) => Ok s
  | _ => invalid
  end.

Definition as_optional_str (v : option value) : Result (option string) :=
  match v with
  | None | Some VNull => Ok None
  | Some (VStr s) => Ok (Some s)
  | _ => invalid
  end.

Definition as_list_str (v : option value) : Result (list string) :=
  match v with
  | Some (VList l) => Ok l
  | _ => invalid
  end.

Definition as_bool (v : option value) : Result bool :=
  match v with
  | Some (VBool b) => Ok b
  | _ => invalid
  end.

Definition as_optional_datetime (v : option value)
  : Result (option datetime) :=
  match v with
  | None | Some VNull => Ok None
  | Some (VDate t) => Ok (Some t)
  | _ => invalid
  end.

(** [d.get(k, dflt)]: the default replaces a missing key only. *)
Definition get_default (d : Doc) (k : string) (dflt : value) : option value :=
  Some (default dflt (doc_get d k)).

(** [serialize_post(doc)].  The handlers that fetch one document pass on
    what [find_one] returned, which is [None] when nothing matched. *)
Definition serialize_post (doc : option Doc) : M BlogPostOut.t :=
  match doc with
  | None =>
      raise (PyExc "AttributeError" "'NoneType' object has no attribute 'get'")
  | Some d =>
      title <- lift (as_str (doc_get d "title"));;
      slug <- lift (as_str (doc_get d "slug"));;
      excerpt <- lift (as_optional_str (doc_get d "excerpt"));;
      content <- lift (as_str (doc_get d "content"));;
      author <- lift (as_str (doc_get d "author"));;
      cover_image_url <- lift (as_optional_str (doc_get d "cover_image_url"));;
      tags <- lift (as_list_str (get_default d "tags" (VList [])));;
      published <- lift (as_bool (get_default d "published" (VBool false)));;
      published_at <- lift (as_optional_datetime (doc_get d "published_at"));;
      created_at <- lift (as_optional_datetime (doc_get d "created_at"));;
      updated_at <- lift (as_optional_datetime (doc_get d "updated_at"));;
      ret (BlogPostOut.mk (oid_str (_id d)) title slug excerpt content author
             cover_image_url tags published published_at created_at
             updated_at)
  end.

(** [[f(x) for x in xs]]: the first exception ends the comprehension. *)
Fixpoint for_each {A C} (f : A -> M C) (xs : list A) : M (list C) :=
  match xs with
  | [] => ret []
  | x :: xs' => y <- f x;; ys <- for_each f xs';; ret (y :: ys)
  end.

(** ** The diagnostics endpoint ([GET /test]) *)

(** [str(e)]. *)
Definition str_exn (e : exn) : string :=
  match e with
  | HTTPException _ detail => detail
  | PyExc _ msg => msg
  end.

(** A string is its UTF-8 bytes; a character is a byte that starts one and
    the continuation bytes (128 to 191) after it. *)
Definition is_continuation (c : Ascii.ascii) : bool :=
  let n := Ascii.nat_of_ascii c in ((128 <=? n) && (n <? 192))%nat.

(** [s[:n]]: the first [n] characters. *)
Fixpoint take_chars (n : nat) (s : string) : string :=
  match s with
  | EmptyString => EmptyString
  | String c s' =>
      if is_continuation c then String c (take_chars n s')
      else match n with
           | O => EmptyString
           | S n' => String c (take_chars n' s')
           end
  end.

Definition first80 (s : string) : string := take_chars 80 s.

Definition test_database : M (gmap string value) :=
  let response : gmap string value :=
    list_to_map
      [ ("backend", VStr "✅ Running");
        ("database", VStr "❌ Not Available");
        ("database_url", VNull);
        ("database_name", VNull);
        ("connection_status", VStr "Not Connected");
        ("collections", VList []) ] in
  try_except
    (fun w =>
       match db w with
       | Some d =>
           let response := <["database" := VStr "✅ Available"]> response in
           let response :=
             <["database_url" :=
                 VStr (if truthy (VStr <$> DATABASE_URL w)
                       then "✅ Set" else "❌ Not Set")]> response in
           let response :=
             <["database_name" :=
                 VStr (default "✅ Connected" (name d))]> response in
           let response :=
             <["connection_status" := VStr "Connected"]> response in
           try_except
             (collections <- list_collection_names;;
              let response :=
                <["collections" := VList (take 10 collections)]> response in
              ret (<["database" := VStr "✅ Connected & Working"]> response))
             (fun e =>
                ret (<["database" :=
                         VStr ("⚠️ Connected but Error: "
                               ++ first80 (str_exn e))]> response))
             w
       | None =>
           ret (<["database" := VStr "⚠️ Available but not initialized"]>
                  response) w
       end)
    (fun e =>
       ret (<["database" := VStr ("❌ Error: " ++ first80 (str_exn e))]>
              response)).

(** ** The posts API *)

(** [GET /]. *)
Definition read_root : M (gmap string value) :=
  ret {["message" := VStr "Blog API is running"]}.

(** [GET /api/posts]. *)
Definition list_posts (published : option bool) (tag : option string)
    (limit : Z) : M (list BlogPostOut.t) :=
  let filter_query : gmap string cond := ∅ in
  let filter_query :=
    match published with
    | Some b => <["published" := CEq (VBool b)]> filter_query
    | None => filter_query
    end in
  let filter_query :=
    match tag with
    | Some t =>
        if truthy (Some (VStr t))
        then <["tags" := CIn [VStr t]]> filter_query
        else filter_query
    | None => filter_query
    end in
  docs <- find "blogpost" filter_query "created_at" (-1) limit;;
  for_each (fun d => serialize_post (Some d)) docs.

(** [GET /api/posts/{post_id}].  The [try] block holds both the
    construction of the identifier and the [find_one] call. *)
Definition get_post (post_id : string) : M BlogPostOut.t :=
  doc <- try_except
           (oid <- ObjectId post_id;;
            find_one "blogpost" {["_id" := CEq (VOid oid)]})
           (fun _ => raise (HTTPException 400 "Invalid post id"));;
  match doc with
  | None => raise (HTTPException 404 "Post not found")
  | Some _ => serialize_post doc
  end.

(** [POST /api/posts].  [create_document] returns the identifier the store
    generated, from which the handler fetches the document again. *)
Definition create_post (payload : BlogPost.t) : M BlogPostOut.t :=
  let data := model_dump payload in
  now <- utcnow;;
  let data :=
    if truthy (data !! "published") && negb (truthy (data !! "published_at"))
    then <["published_at" := VDate now]> data
    else data in
  inserted_id <- create_document "blogpost" data;;
  doc <- find_one "blogpost" {["_id" := CEq (VOid inserted_id)]};;
  serialize_post doc.

(** Lines 151 to 161 of [update_post]: the dictionary handed to [$set]. *)
Definition update_data (payload : BlogPostUpdate.t)
  : M (gmap string value) :=
  let update_data := model_dump_exclude_unset payload in
  if bool_decide (update_data = ∅)
  then raise (HTTPException 400 "No data to update")
  else
    update_data <-
      (if truthy (update_data !! "published")
       then now <- utcnow;;
            ret (setdefault "published_at" (VDate now) update_data)
       else ret update_data);;
    let update_data :=
      if bool_decide (update_data !! "published" = Some (VBool false))
      then setdefault "published_at" VNull update_data
      else update_data in
    now <- utcnow;;
    ret (<["updated_at" := VDate now]> update_data).

(** [PUT] and [PATCH /api/posts/{post_id}]. *)
Definition update_post (post_id : string) (payload : BlogPostUpdate.t)
  : M BlogPostOut.t :=
  oid <- try_except (ObjectId post_id)
           (fun _ => raise (HTTPException 400 "Invalid post id"));;
  update_data <- update_data payload;;
  matched_count <-
    update_one "blogpost" {["_id" := CEq (VOid oid)]} update_data;;
  if (matched_count =? 0)%Z
  then raise (HTTPException 404 "Post not found")
  else
    doc <- find_one "blogpost" {["_id" := CEq (VOid oid)]};;
    serialize_post doc.

(** The dictionary [update_post] hands to [update_one]: the [$set] argument
    of the first driver call the handler makes, if it makes one. *)
Definition applied_fields (post_id : string) (payload : BlogPostUpdate.t)
    (w : World) : option (gmap string value) :=
  match drop (length (trace w)) (trace (update_post post_id payload w).2) with
  | UpdateOne _ _ set :: _ => Some set
  | _ => None
  end.

(** [DELETE /api/posts/{post_id}]. *)
Definition delete_post (post_id : string) : M (gmap string value) :=
  oid <- try_except (ObjectId post_id)
           (fun _ => raise (HTTPException 400 "Invalid post id"));;
  deleted_count <- delete_one "blogpost" {["_id" := CEq (VOid oid)]};;
  if (deleted_count =? 0)%Z
  then raise (HTTPException 404 "Post not found")
  else ret {["success" := VBool true]}.

End Handlers.

(** ** A concrete identifier type and example worlds *)

Definition is_hex_digit (c : Ascii.ascii) : bool :=
  let n := Ascii.nat_of_ascii c in
  ((48 <=? n) && (n <=? 57) || (65 <=? n) && (n <=? 70)
   || (97 <=? n) && (n <=? 102))%nat.

Definition lower (c : Ascii.ascii) : Ascii.ascii :=
  let n := Ascii.nat_of_ascii c in
  if ((65 <=? n) && (n <=? 90))%nat then Ascii.ascii_of_nat (n + 32) else c.

(** The textual form of an identifier: 24 hexadecimal digits, read without
    regard to case and printed in lower case. *)
Definition hex24 (s : string) : option string :=
  let cs := String.list_ascii_of_string s in
  if (length cs =? 24)%nat && forallb is_hex_digit cs
  then Some (String.string_of_list_ascii (map lower cs))
  else None.

#[export] Instance hex_oid : Bson :=
  {| oid := string; ObjectId_of_str := hex24; oid_str := fun o => o |}.

Module Examples.
Local Open Scope py_scope.

Definition id1 : string := "65f0a1b2c3d4e5f601234567".
Definition id2 : string := "65f0a1b2c3d4e5f6012345ff".
Definition id3 : string := "0123456789abcdef01234567".

(** A stored post: the nine fields of the schema, and [created_at] when
    the collection was loaded with one. *)
Definition post (i : string) (title : string) (tags : list string)
    (published : bool) (created : option datetime) : Doc :=
  mkDoc i
    (match created with
     | Some t => <["created_at" := VDate t]>
     | None => fun m => m
     end
       (model_dump
          (BlogPost.mk title "a-slug" None "body" "Jo" None tags published
             (if published then created else None)))).

Definition posts : list Doc :=
  [ post id1 "First post" ["coq"; "foo"] true (Some 100);
    post id2 "Second post" [] false (Some 200) ].

(** A store that answers every call, with the clock at 1000, 1001, ... *)
Definition world_of (ds : list Doc) : World :=
  mkWorld (Some (mkDatabase (Some "blog") {["blogpost" := ds]}))
    (Some "mongodb://localhost:27017")
    (fun n => 1000 + Z.of_nat n) 0 (fun _ => None) (fun _ => id3) [].

Definition world : World := world_of posts.

(** The same store, whose next call raises. *)
Definition world_failing : World :=
  mkWorld (db world) (DATABASE_URL world) (utcnow_at world) 0
    (fun _ => Some "connection refused") (new_oid_at world) [].

(** No database configured. *)
Definition world_no_db : World :=
  mkWorld None None (utcnow_at world) 0 (fun _ => None) (new_oid_at world) [].

(** A published post without [published_at], with and without a cover
    image. *)
Definition payload (cover : option string) : BlogPost.t :=
  BlogPost.mk "Hi There" "hi-there" None "body" "Jo" cover [] true None.

Definition body_tags_null : BlogPostUpdate.t :=
  BlogPostUpdate.mk None None None None None None (Some None) None None.

Definition body_published (b : bool) : BlogPostUpdate.t :=
  BlogPostUpdate.mk None None None None None None None (Some (Some b)) None.

Definition body_published_at (b : bool) (t : datetime) : BlogPostUpdate.t :=
  BlogPostUpdate.mk None None None None None None None (Some (Some b))
    (Some (Some t)).
End Examples.

(** * Properties *)

Section Properties.
Context `{B : Bson}.
Local Open Scope py_scope.

(** ** The driver *)

Lemma driver_no_db {A} (c : call) (run : oid -> Database -> A * Database) w :
  db w = None ->
  driver c run w
  = (Raise (PyExc "TypeError" "'NoneType' object is not subscriptable"), w).
Proof. intros H. unfold driver. now rewrite H. Qed.

Lemma driver_fails {A} (c : call) (run : oid -> Database -> A * Database)
    w d msg :
  db w = Some d ->
  fails_at w (length (trace w)) = Some msg ->
  driver c run w
  = (Raise (PyExc "PyMongoError" msg), set_trace (trace w ++ [c]) w).
Proof. intros Hd Hf. unfold driver. now rewrite Hd, Hf. Qed.

Lemma driver_runs {A} (c : call) (run : oid -> Database -> A * Database)
    w d :
  db w = Some d ->
  fails_at w (length (trace w)) = None ->
  driver c run w
  = (Ok (run (new_oid_at w (length (trace w))) d).1,
     set_db (Some (run (new_oid_at w (length (trace w))) d).2)
       (set_trace (trace w ++ [c]) w)).
Proof.
  intros Hd Hf. unfold driver. rewrite Hd, Hf.
  now destruct (run _ d).
Qed.

(** A driver call never answers with an [HTTPException]. *)
Lemma driver_raises {A} (c : call) (run : oid -> Database -> A * Database)
    w e w' :
  driver c run w = (Raise e, w') -> exists cls msg, e = PyExc cls msg.
Proof.
  unfold driver. destruct (db w) as [d|]; [|intros [= <- _]; eauto].
  destruct (fails_at w _); [intros [= <- _]; eauto|].
  now destruct (run _ d).
Qed.

(** ** First matches *)

(** Matching on [{"_id": o}] is a comparison of identifiers. *)
Lemma matches_id (o : oid) (d : Doc) :
  matches {["_id" := CEq (VOid o)]} d = bool_decide (_id d = o).
Proof.
  unfold matches. apply bool_decide_ext.
  rewrite map_Forall_singleton. unfold doc_get. simpl.
  rewrite bool_decide_eq_true. split; congruence.
Qed.

Lemma find_none (q : gmap string cond) (ds : list Doc) :
  Forall (fun d => matches q d = false) ds -> List.find (matches q) ds = None.
Proof.
  induction 1 as [|d ds Hd _ IH]; simpl; [done|]. now rewrite Hd.
Qed.

Lemma update_first_none q set (ds : list Doc) :
  Forall (fun d => matches q d = false) ds -> update_first q set ds = None.
Proof.
  induction 1 as [|d ds Hd _ IH]; simpl; [done|]. now rewrite Hd, IH.
Qed.

Lemma delete_first_none q (ds : list Doc) :
  Forall (fun d => matches q d = false) ds -> delete_first q ds = None.
Proof.
  induction 1 as [|d ds Hd _ IH]; simpl; [done|]. now rewrite Hd, IH.
Qed.

Lemma no_match_id (o : oid) (ds : list Doc) :
  Forall (fun d => _id d <> o) ds ->
  Forall (fun d => matches {["_id" := CEq (VOid o)]} d = false) ds.
Proof.
  intros H. eapply Forall_impl; [exact H|].
  intros d Hd. rewrite matches_id. now apply bool_decide_eq_false.
Qed.

Lemma update_first_app q set (pre post : list Doc) d :
  Forall (fun x => matches q x = false) pre ->
  matches q d = true ->
  update_first q set (pre ++ d :: post)%list
  = Some (pre ++ apply_set set d :: post)%list.
Proof.
  induction 1 as [|x pre Hx _ IH]; intros Hd; simpl.
  - now rewrite Hd.
  - now rewrite Hx, IH.
Qed.

Lemma find_app q (pre post : list Doc) d :
  Forall (fun x => matches q x = false) pre ->
  matches q d = true ->
  List.find (matches q) (pre ++ d :: post)%list = Some d.
Proof.
  induction 1 as [|x pre Hx _ IH]; intros Hd; simpl.
  - now rewrite Hd.
  - now rewrite Hx, IH.
Qed.

(** ** The dump of an update payload *)

Lemma put_lookup {A} k (f : A -> value) o d k' :
  put k f o d !! k'
  = match o with
    | Some v => if decide (k = k') then Some (opt_value f v) else d !! k'
    | None => d !! k'
    end.
Proof.
  destruct o as [v|]; simpl; [|done].
  now rewrite lookup_insert.
Qed.

Lemma put_lookup_ne {A} k (f : A -> value) o d k' :
  k <> k' -> put k f o d !! k' = d !! k'.
Proof. intros H. rewrite put_lookup. destruct o; [|done]. by case_decide. Qed.

Lemma put_lookup_eq {A} k (f : A -> value) o d :
  put k f o d !! k
  = match o with
    | Some v => Some (opt_value f v)
    | None => d !! k
    end.
Proof. rewrite put_lookup. destruct o; [|done]. by case_decide. Qed.

Lemma put_empty {A} k (f : A -> value) o d :
  put k f o d = ∅ -> o = None /\ d = ∅.
Proof.
  destruct o as [v|]; simpl; [|done].
  intros H. now apply insert_non_empty in H.
Qed.

(** The dump is empty exactly for the model of the body [{}]. *)
Lemma model_dump_exclude_unset_empty (p : BlogPostUpdate.t) :
  model_dump_exclude_unset p = ∅ <-> p = BlogPostUpdate.unset.
Proof.
  split; [|now intros ->].
  unfold model_dump_exclude_unset. intros H.
  repeat (apply put_empty in H; destruct H as [? H]).
  destruct p; simpl in *. now subst.
Qed.

(** The dump tells a field left out from a field set to null. *)
Lemma model_dump_exclude_unset_lookup (p : BlogPostUpdate.t) :
  let m := model_dump_exclude_unset p in
  m !! "title" = opt_value VStr <$> BlogPostUpdate.title p
  /\ m !! "slug" = opt_value VStr <$> BlogPostUpdate.slug p
  /\ m !! "excerpt" = opt_value VStr <$> BlogPostUpdate.excerpt p
  /\ m !! "content" = opt_value VStr <$> BlogPostUpdate.content p
  /\ m !! "author" = opt_value VStr <$> BlogPostUpdate.author p
  /\ m !! "cover_image_url"
     = opt_value VStr <$> BlogPostUpdate.cover_image_url p
  /\ m !! "tags" = opt_value VList <$> BlogPostUpdate.tags p
  /\ m !! "published" = opt_value VBool <$> BlogPostUpdate.published p
  /\ m !! "published_at" = opt_value VDate <$> BlogPostUpdate.published_at p
  /\ m !! "updated_at" = None.
Proof.
  unfold model_dump_exclude_unset. simpl.
  repeat split;
    repeat (rewrite put_lookup_ne by done);
    rewrite ?put_lookup_eq;
    repeat (rewrite put_lookup_ne by done);
    rewrite ?lookup_empty;
    try match goal with
        | |- context [match ?o with Some _ => _ | None => _ end] => destruct o
        end; reflexivity.
Qed.

(** ** Identifier errors and the empty update *)

Lemma ObjectId_invalid post_id w :
  ObjectId_of_str post_id = None ->
  try_except (ObjectId post_id)
    (fun _ => raise (HTTPException 400 "Invalid post id")) w
  = (Raise (HTTPException 400 "Invalid post id"), w).
Proof. intros H. unfold try_except, ObjectId. now rewrite H. Qed.

Lemma ObjectId_valid post_id o w :
  ObjectId_of_str post_id = Some o ->
  try_except (ObjectId post_id)
    (fun _ => raise (HTTPException 400 "Invalid post id")) w
  = (Ok o, w).
Proof. intros H. unfold try_except, ObjectId. now rewrite H. Qed.

Lemma update_data_empty p w :
  model_dump_exclude_unset p = ∅ ->
  update_data p w = (Raise (HTTPException 400 "No data to update"), w).
Proof.
  intros H. unfold update_data. rewrite H.
  now rewrite bool_decide_eq_true_2.
Qed.

(** C6: an update whose body sets no field is answered with 400 whatever
    the identifier is, and the world is left as it was: no driver call is
    recorded, no document changes. *)
Theorem update_post_no_data (post_id : string) (p : BlogPostUpdate.t)
    (w : World) :
  model_dump_exclude_unset p = ∅ ->
  exists detail,
    update_post post_id p w = (Raise (HTTPException 400 detail), w).
Proof.
  intros Hp. unfold update_post, bind.
  destruct (ObjectId_of_str post_id) as [o|] eqn:Ho.
  - rewrite (ObjectId_valid _ o) by done.
    rewrite update_data_empty by done. eauto.
  - rewrite ObjectId_invalid by done. eauto.
Qed.

(** C5, as amended: a malformed identifier is answered with 400 by get,
    update and delete; a well-formed identifier that no stored document
    has is answered with 404 by get and delete, and by update when the body
    sets at least one field (the store being reachable and answering). *)
Theorem identifier_errors (post_id : string) (w : World) :
  (ObjectId_of_str post_id = None ->
     http_status (get_post post_id w).1 = 400
     /\ (forall p, http_status (update_post post_id p w).1 = 400)
     /\ http_status (delete_post post_id w).1 = 400)
  /\ (forall o d,
        ObjectId_of_str post_id = Some o ->
        db w = Some d ->
        fails_at w (length (trace w)) = None ->
        Forall (fun doc => _id doc <> o) (docs_of d "blogpost") ->
        http_status (get_post post_id w).1 = 404
        /\ (forall p, model_dump_exclude_unset p <> ∅ ->
                      http_status (update_post post_id p w).1 = 404)
        /\ http_status (delete_post post_id w).1 = 404).
Proof.
  split.
  - intros Ho. repeat split.
    + unfold get_post, bind, try_except, ObjectId. now rewrite Ho.
    + intros p. unfold update_post, bind. now rewrite ObjectId_invalid.
    + unfold delete_post, bind. now rewrite ObjectId_invalid.
  - intros o d Ho Hd Hf Hnone. apply no_match_id in Hnone. repeat split.
    + unfold get_post, bind, try_except, ObjectId. rewrite Ho. simpl.
      unfold find_one. rewrite (driver_runs _ _ w d) by done. simpl.
      now rewrite find_none.
    + intros p Hp. unfold update_post, bind.
      rewrite (ObjectId_valid _ o) by done.
      destruct (update_data p w) as [[upd|e] w1] eqn:Hu.
      * assert (db w1 = Some d /\ fails_at w1 = fails_at w
                /\ trace w1 = trace w) as (Hd1 & Hf1 & Ht1).
        { revert Hu. unfold update_data, bind, utcnow, ret.
          rewrite bool_decide_eq_false_2 by done.
          destruct (truthy _); intros [= _ <-]; done. }
        unfold update_one. rewrite (driver_runs _ _ w1 d); simpl.
        -- now rewrite update_first_none.
        -- done.
        -- now rewrite Hf1, Ht1.
      * revert Hu. unfold update_data, bind, utcnow, ret.
        rewrite bool_decide_eq_false_2 by done.
        destruct (truthy _); intros [=].
    + unfold delete_post, bind. rewrite (ObjectId_valid _ o) by done.
      unfold delete_one. rewrite (driver_runs _ _ w d) by done. simpl.
      now rewrite delete_first_none.
Qed.

(** ** Diagnostics *)

(** C8: the diagnostics endpoint returns for every world.  The collections
    it reports are at most ten; a failing driver call and a missing database
    end up as a status string under ["database"]. *)
Theorem test_database_never_fails (w : World) :
  exists resp w',
    test_database w = (Ok resp, w')
    /\ (exists cs, resp !! "collections" = Some (VList cs)
                   /\ (length cs <= 10)%nat)
    /\ (forall d msg,
          db w = Some d ->
          fails_at w (length (trace w)) = Some msg ->
          resp !! "database"
          = Some (VStr ("⚠️ Connected but Error: " ++ first80 msg)))
    /\ (db w = None ->
        resp !! "database" = Some (VStr "⚠️ Available but not initialized")).
Proof.
  unfold test_database, try_except at 1.
  destruct (db w) as [d|] eqn:Hd.
  - unfold try_except, bind, list_collection_names.
    destruct (fails_at w (length (trace w))) as [msg|] eqn:Hf.
    + rewrite (driver_fails _ _ w d msg) by done. simpl.
      eexists _, _. split; [reflexivity|]. split; [|split].
      * exists []. split; [by simplify_map_eq | simpl; lia].
      * intros d' msg' _ [= <-]. by simplify_map_eq.
      * done.
    + rewrite (driver_runs _ _ w d) by done. simpl.
      eexists _, _. split; [reflexivity|]. split; [|split].
      * eexists. split; [by simplify_map_eq|].
        rewrite length_take. lia.
      * intros d' msg' _ [=].
      * done.
  - simpl. eexists _, _. split; [reflexivity|]. split; [|split].
    + exists []. split; [by simplify_map_eq | simpl; lia].
    + intros d msg [=].
    + intros _. by simplify_map_eq.
Qed.

(** ** The dictionary of an update *)

Lemma setdefault_lookup k v (d : gmap string value) k' :
  setdefault k v d !! k'
  = if decide (k = k') then Some (default v (d !! k)) else d !! k'.
Proof.
  unfold setdefault. destruct (d !! k) as [x|] eqn:Hk; simpl.
  - case_decide; congruence.
  - now rewrite lookup_insert.
Qed.

(** What lines 151 to 161 compute for a body that sets a field: the clock
    is read once for a truthy [published] and once for [updated_at]. *)
Lemma update_data_ok (p : BlogPostUpdate.t) (w : World) :
  model_dump_exclude_unset p <> ∅ ->
  let m := model_dump_exclude_unset p in
  let pub := truthy (m !! "published") in
  let m1 :=
    if pub then setdefault "published_at" (VDate (utcnow_at w (ticks w))) m
    else m in
  let m2 :=
    if bool_decide (m1 !! "published" = Some (VBool false))
    then setdefault "published_at" VNull m1 else m1 in
  let n := if pub then S (ticks w) else ticks w in
  update_data p w
  = (Ok (<["updated_at" := VDate (utcnow_at w n)]> m2), set_ticks (S n) w).
Proof.
  intros Hp. unfold update_data, bind, utcnow, ret. simpl.
  rewrite bool_decide_eq_false_2 by done.
  destruct (truthy _); reflexivity.
Qed.

Lemma serialize_post_world doc w : (serialize_post doc w).2 = w.
Proof.
  destruct doc as [d|]; [|done]. unfold serialize_post, bind, lift, ret.
  repeat match goal with
  | |- context [match ?r with Ok _ => _ | Raise _ => _ end] => destruct r
  | |- context [let (_, _) := ?r in _] => destruct r
  end; try done.
  all: repeat match goal with
  | |- context [as_str ?v] => destruct (as_str v); simpl
  | |- context [as_optional_str ?v] => destruct (as_optional_str v); simpl
  | |- context [as_list_str ?v] => destruct (as_list_str v); simpl
  | |- context [as_bool ?v] => destruct (as_bool v); simpl
  | |- context [as_optional_datetime ?v] =>
      destruct (as_optional_datetime v); simpl
  end; done.
Qed.

Lemma driver_trace {A} (c : call) (run : oid -> Database -> A * Database) w :
  is_Some (db w) -> trace (driver c run w).2 = (trace w ++ [c])%list.
Proof.
  intros [d Hd]. unfold driver. rewrite Hd.
  destruct (fails_at w _); [done|]. now destruct (run _ d).
Qed.

Lemma driver_db {A} (c : call) (run : oid -> Database -> A * Database) w :
  is_Some (db w) -> is_Some (db (driver c run w).2).
Proof.
  intros [d Hd]. unfold driver. rewrite Hd.
  destruct (fails_at w _); simpl; [rewrite Hd; eauto|].
  destruct (run _ d); simpl; eauto.
Qed.

(** With a well-formed identifier and a database, [update_post] hands the
    dictionary of [update_data] to the driver. *)
Lemma applied_fields_update_data post_id o p w upd w1 :
  ObjectId_of_str post_id = Some o ->
  is_Some (db w) ->
  update_data p w = (Ok upd, w1) ->
  applied_fields post_id p w = Some upd.
Proof.
  intros Ho Hdb Hu.
  assert (model_dump_exclude_unset p <> ∅) as Hp.
  { intros He. rewrite update_data_empty in Hu; done. }
  pose proof (update_data_ok p w Hp) as Hok. simpl in Hok.
  rewrite Hu in Hok. injection Hok as Hupd Hw1.
  assert (trace w1 = trace w /\ db w1 = db w) as [Ht Hd].
  { now rewrite Hw1. }
  unfold applied_fields, update_post, bind.
  rewrite (ObjectId_valid _ o) by done. rewrite Hu.
  unfold update_one.
  set (c := UpdateOne _ _ _). set (run := fun _ _ => _).
  pose proof (driver_trace c run w1) as Htr.
  pose proof (driver_db c run w1) as Hdb'.
  rewrite Hd in Htr, Hdb'. specialize (Htr Hdb). specialize (Hdb' Hdb).
  destruct (driver c run w1) as [[n|e] w2]; simpl in *.
  - destruct (n =? 0)%Z.
    + simpl. rewrite Htr, Ht, drop_app_length. done.
    + unfold find_one.
      set (c2 := FindOne _ _). set (run2 := fun _ _ => _).
      pose proof (driver_trace c2 run2 w2 Hdb') as Htr2.
      destruct (driver c2 run2 w2) as [[doc|e] w3]; simpl in *.
      * rewrite serialize_post_world, Htr2, Htr, Ht, <- app_assoc.
        now rewrite drop_app_length.
      * rewrite Htr2, Htr, Ht, <- app_assoc. now rewrite drop_app_length.
  - rewrite Htr, Ht, drop_app_length. done.
Qed.

(** C1: with a well-formed identifier and a database at hand, the
    dictionary [update_post] applies holds, under ["published_at"], the
    clock reading when the body sets [published] to true and leaves
    [published_at] out, null when it sets [published] to false and leaves
    [published_at] out, and the value of the body whenever the body sets
    [published_at] along with [published]. *)
Theorem update_post_published_at (post_id : string) (o : oid)
    (p : BlogPostUpdate.t) (w : World) :
  ObjectId_of_str post_id = Some o ->
  is_Some (db w) ->
  (BlogPostUpdate.published p = Some (Some true) ->
   BlogPostUpdate.published_at p = None ->
   exists upd,
     applied_fields post_id p w = Some upd
     /\ upd !! "published_at" = Some (VDate (utcnow_at w (ticks w))))
  /\ (BlogPostUpdate.published p = Some (Some false) ->
      BlogPostUpdate.published_at p = None ->
      exists upd,
        applied_fields post_id p w = Some upd
        /\ upd !! "published_at" = Some VNull)
  /\ (forall b v,
        BlogPostUpdate.published p = Some b ->
        BlogPostUpdate.published_at p = Some v ->
        exists upd,
          applied_fields post_id p w = Some upd
          /\ upd !! "published_at" = Some (opt_value VDate v)).
Proof.
  intros Ho Hdb.
  destruct (model_dump_exclude_unset_lookup p)
    as (_ & _ & _ & _ & _ & _ & _ & Hpub & Hat & _).
  assert (forall b, BlogPostUpdate.published p = Some b ->
                    model_dump_exclude_unset p <> ∅) as Hne.
  { intros b Hb He. rewrite He, Hb in Hpub. by rewrite lookup_empty in Hpub. }
  split; [|split].
  - intros Hb Hv. pose proof (update_data_ok p w (Hne _ Hb)) as Hok.
    simpl in Hok. eexists. split.
    + eapply applied_fields_update_data; eauto.
    + rewrite Hb in Hpub. rewrite Hv in Hat. simpl in *.
      rewrite Hpub. simpl.
      rewrite lookup_insert_ne by done.
      rewrite bool_decide_eq_false_2.
      * rewrite setdefault_lookup. simpl. now rewrite Hat.
      * rewrite setdefault_lookup. simpl. rewrite Hpub. congruence.
  - intros Hb Hv. pose proof (update_data_ok p w (Hne _ Hb)) as Hok.
    simpl in Hok. eexists. split.
    + eapply applied_fields_update_data; eauto.
    + rewrite Hb in Hpub. rewrite Hv in Hat. simpl in *.
      rewrite Hpub. simpl.
      rewrite lookup_insert_ne by done.
      rewrite bool_decide_eq_true_2 by done.
      rewrite setdefault_lookup. simpl. now rewrite Hat.
  - intros b v Hb Hv. pose proof (update_data_ok p w (Hne _ Hb)) as Hok.
    simpl in Hok. eexists. split.
    + eapply applied_fields_update_data; eauto.
    + rewrite Hv in Hat. simpl in *.
      rewrite lookup_insert_ne by done.
      destruct (truthy (model_dump_exclude_unset p !! "published"));
        destruct (bool_decide _);
        rewrite ?setdefault_lookup; simpl;
        rewrite ?setdefault_lookup; simpl; now rewrite ?Hat.
Qed.

(** ** The frame of an update *)

(** Every key of the dictionary [update_post] applies: the fields the body
    set, with their values; [updated_at]; and [published_at] when the body
    set [published] to true or to false. *)
Lemma update_data_lookup (p : BlogPostUpdate.t) (w w1 : World) upd :
  update_data p w = (Ok upd, w1) ->
  forall k,
    upd !! k
    = match model_dump_exclude_unset p !! k with
      | Some v => Some v
      | None =>
          if decide (k = "updated_at") then
            Some (VDate (utcnow_at w
                           match BlogPostUpdate.published p with
                           | Some (Some true) => S (ticks w)
                           | _ => ticks w
                           end))
          else if decide (k = "published_at") then
            match BlogPostUpdate.published p with
            | Some (Some true) => Some (VDate (utcnow_at w (ticks w)))
            | Some (Some false) => Some VNull
            | _ => None
            end
          else None
      end.
Proof.
  intros Hu k.
  assert (model_dump_exclude_unset p <> ∅) as Hp.
  { intros He. rewrite update_data_empty in Hu; done. }
  pose proof (update_data_ok p w Hp) as Hok. simpl in Hok.
  rewrite Hu in Hok. injection Hok as -> _. clear Hu.
  destruct (model_dump_exclude_unset_lookup p)
    as (_ & _ & _ & _ & _ & _ & _ & Hpub & _ & Hupd).
  simpl in Hpub, Hupd. rewrite Hpub.
  destruct (BlogPostUpdate.published p) as [[[|]|]|]; simpl;
    rewrite ?setdefault_lookup, ?Hpub; simpl;
    rewrite lookup_insert, ?setdefault_lookup;
    repeat case_decide; subst; simpl; rewrite ?Hupd; try congruence;
    match goal with
    | |- context [match ?x with Some _ => _ | None => _ end] => now destruct x
    end.
Qed.

Lemma find_one_serialize_db collection q w :
  db (bind (find_one collection q) serialize_post w).2 = db w.
Proof.
  unfold bind, find_one, driver.
  destruct (db w) as [d|] eqn:Hd; simpl; [|done].
  destruct (fails_at w _); simpl; [done|].
  now rewrite serialize_post_world.
Qed.

Lemma stored_set_docs w d ds :
  db w = Some (set_docs "blogpost" ds d) -> stored w "blogpost" = ds.
Proof.
  intros H. unfold stored, docs_of. rewrite H. simpl.
  now rewrite lookup_insert_eq.
Qed.

Lemma update_first_frame q set (ds ds' : list Doc) :
  update_first q set ds = Some ds' ->
  Forall2 (fun old new => new = old \/ new = apply_set set old) ds ds'.
Proof.
  revert ds'. induction ds as [|d ds IH]; intros ds'; simpl; [done|].
  destruct (matches q d).
  - intros [= <-]. constructor; [auto|]. apply Forall2_same_length_lookup.
    split; [done|]. intros i x y Hx Hy. left. congruence.
  - destruct (update_first q set ds) as [ds0|]; simpl; [|done].
    intros [= <-]. constructor; auto.
Qed.

(** The posts after any [update_post]: as before, or with the first post of
    the identifier rewritten by the dictionary of [update_data]. *)
Lemma update_post_stored post_id p w :
  let w' := (update_post post_id p w).2 in
  stored w' "blogpost" = stored w "blogpost"
  \/ exists o upd w1 ds',
      update_data p w = (Ok upd, w1)
      /\ update_first {["_id" := CEq (VOid o)]} upd (stored w "blogpost")
         = Some ds'
      /\ stored w' "blogpost" = ds'.
Proof.
  simpl. unfold update_post, bind.
  destruct (ObjectId_of_str post_id) as [o|] eqn:Ho;
    [rewrite (ObjectId_valid _ o) by done
    |rewrite ObjectId_invalid by done; now left].
  destruct (decide (model_dump_exclude_unset p = ∅)) as [He|Hp].
  { rewrite update_data_empty by done. now left. }
  pose proof (update_data_ok p w Hp) as Hok. simpl in Hok.
  set (upd := <["updated_at" := _]> _) in Hok.
  set (w1 := set_ticks _ w) in Hok. rewrite Hok.
  unfold update_one.
  destruct (db w) as [d|] eqn:Hd;
    [|rewrite driver_no_db by done; left; unfold stored; simpl;
      now rewrite Hd].
  destruct (fails_at w (length (trace w))) as [msg|] eqn:Hf.
  { rewrite (driver_fails _ _ w1 d msg) by done. now left. }
  rewrite (driver_runs _ _ w1 d) by done. simpl.
  destruct (update_first _ upd (docs_of d "blogpost")) as [ds'|] eqn:Hup;
    simpl.
  - right. exists o, upd, w1, ds'. split; [done|].
    unfold stored at 1. rewrite Hd. split; [done|].
    pose proof (find_one_serialize_db "blogpost"
                  {["_id" := CEq (VOid o)]}) as Hdb.
    unfold bind in Hdb. eapply stored_set_docs. rewrite Hdb. reflexivity.
  - left. unfold stored. simpl. now rewrite Hd.
Qed.

(** C2: whatever the request, an update leaves every post its identifier
    and every field that is neither set by the body nor [published_at] nor
    [updated_at].  When it reaches a stored post it rewrites that post
    only, and of its fields only those the body set (a field set to null is
    written as null), [updated_at], and [published_at] when the body set
    [published] to true or to false; a field the body left out keeps its
    value. *)
Theorem update_post_frame (post_id : string) (p : BlogPostUpdate.t)
    (w : World) :
  Forall2
    (fun old new =>
       _id new = _id old
       /\ forall k,
           model_dump_exclude_unset p !! k = None ->
           k <> "published_at" -> k <> "updated_at" ->
           fields new !! k = fields old !! k)
    (stored w "blogpost") (stored (update_post post_id p w).2 "blogpost")
  /\ forall (o : oid) (d : Database) (pre post : list Doc) (doc : Doc),
      ObjectId_of_str post_id = Some o ->
      db w = Some d ->
      fails_at w (length (trace w)) = None ->
      model_dump_exclude_unset p <> ∅ ->
      docs_of d "blogpost" = (pre ++ doc :: post)%list ->
      Forall (fun x => _id x <> o) pre ->
      _id doc = o ->
      exists doc',
        stored (update_post post_id p w).2 "blogpost"
        = (pre ++ doc' :: post)%list
        /\ _id doc' = o
        /\ forall k,
            fields doc' !! k
            = match model_dump_exclude_unset p !! k with
              | Some v => Some v
              | None =>
                  if decide (k = "updated_at") then
                    Some (VDate (utcnow_at w
                                   match BlogPostUpdate.published p with
                                   | Some (Some true) => S (ticks w)
                                   | _ => ticks w
                                   end))
                  else if decide (k = "published_at") then
                    match BlogPostUpdate.published p with
                    | Some (Some true) =>
                        Some (VDate (utcnow_at w (ticks w)))
                    | Some (Some false) => Some VNull
                    | _ => fields doc !! k
                    end
                  else fields doc !! k
              end.
Proof.
  split.
  - destruct (update_post_stored post_id p w)
      as [->|(o & upd & w1 & ds' & Hu & Hup & ->)].
    + apply Forall2_same_length_lookup. split; [done|].
      intros i x y Hx Hy. assert (x = y) as -> by congruence. done.
    + apply update_first_frame in Hup.
      eapply Forall2_impl; [exact Hup|].
      intros old new [->| ->]; [done|]. split; [done|].
      intros k Hk Hpa Hua. simpl.
      rewrite lookup_union, (update_data_lookup p w w1 upd Hu), Hk.
      repeat case_decide; try done. now destruct (fields old !! k).
  - intros o d pre post doc Ho Hd Hf Hp Hdocs Hpre Hdoc.
    pose proof (update_data_ok p w Hp) as Hok. simpl in Hok.
    set (upd := <["updated_at" := _]> _) in Hok.
    set (w1 := set_ticks _ w) in Hok.
    pose proof (update_data_lookup p w w1 upd Hok) as Hlk.
    exists (apply_set upd doc). split; [|split].
    + unfold update_post, bind. rewrite (ObjectId_valid _ o) by done.
      rewrite Hok. unfold update_one.
      rewrite (driver_runs _ _ w1 d) by done. simpl.
      rewrite Hdocs, update_first_app; simpl.
      * pose proof (find_one_serialize_db "blogpost"
                      {["_id" := CEq (VOid o)]}) as Hdb.
        unfold bind in Hdb. eapply stored_set_docs. rewrite Hdb.
        reflexivity.
      * now apply no_match_id.
      * rewrite matches_id. now apply bool_decide_eq_true.
    + done.
    + intros k. simpl. rewrite lookup_union, Hlk.
      destruct (model_dump_exclude_unset p !! k) as [v|];
        [now destruct (fields doc !! k)|].
      repeat case_decide; subst;
        destruct (BlogPostUpdate.published p) as [[[|]|]|];
        now destruct (fields doc !! _).
Qed.

(** ** Creation *)

(** What is stored by [create_post] for a payload without cover image: the
    dump, with ["published_at"] replaced by the clock reading for a
    published post without one. *)
Lemma serialize_created (o : oid) (p : BlogPost.t) (at_ : option datetime)
    (w : World) :
  BlogPost.cover_image_url p = None ->
  serialize_post
    (Some (mkDoc o (<["published_at" := opt_value VDate at_]> (model_dump p))))
    w
  = (Ok (BlogPostOut.mk (oid_str o) (BlogPost.title p) (BlogPost.slug p)
           (BlogPost.excerpt p) (BlogPost.content p) (BlogPost.author p)
           None (BlogPost.tags p)
           (BlogPost.published p) at_ None None), w).
Proof.
  destruct p as [t s e c a u tg pb pa]. simpl. intros ->.
  unfold serialize_post, model_dump.
  destruct e, at_; reflexivity.
Qed.

(** Whether the driver can encode what [create_post] inserts is a matter of
    the cover image alone. *)
Lemma create_post_encodable (p : BlogPost.t) (at_ : option datetime) :
  bson_encodable (<["published_at" := opt_value VDate at_]> (model_dump p))
  = match BlogPost.cover_image_url p with
    | None => true
    | Some _ => false
    end.
Proof.
  unfold bson_encodable.
  destruct (BlogPost.cover_image_url p) as [u|] eqn:Hu.
  - apply bool_decide_eq_false. intros Hall.
    specialize (Hall "cover_image_url" (VUrl u)). simpl in Hall.
    enough (Some (VUrl u) = Some (VUrl u) -> true = false) as H
      by (specialize (H eq_refl); discriminate H).
    intros _. apply Hall. rewrite lookup_insert_ne by done.
    unfold model_dump. rewrite Hu. reflexivity.
  - apply bool_decide_eq_true. apply map_Forall_insert_2.
    { now destruct at_. }
    unfold model_dump. rewrite Hu.
    rewrite !list_to_map_cons, list_to_map_nil.
    repeat (apply map_Forall_insert_2;
            [simpl; try reflexivity;
             try (now destruct (BlogPost.excerpt p));
             try (now destruct (BlogPost.published_at p))|]).
    apply map_Forall_empty.
Qed.

Lemma model_dump_published (p : BlogPost.t) :
  model_dump p !! "published" = Some (VBool (BlogPost.published p)).
Proof. reflexivity. Qed.

Lemma model_dump_published_at (p : BlogPost.t) :
  model_dump p !! "published_at"
  = Some (opt_value VDate (BlogPost.published_at p)).
Proof. reflexivity. Qed.

(** A payload without cover image, on a store that answers and whose
    generated identifier is new: [create_post] returns the created post.
    Its [published_at] is the clock reading when the payload is published
    and carries no [published_at]; it is the payload's [published_at]
    (null when there is none) when the payload is not published.  The post
    is stored, with that same [published_at], at the end of the
    collection. *)
Lemma create_post_without_cover (p : BlogPost.t) (w : World)
    (d : Database) :
  BlogPost.valid p ->
  BlogPost.cover_image_url p = None ->
  db w = Some d ->
  fails_at w (length (trace w)) = None ->
  fails_at w (S (length (trace w))) = None ->
  Forall (fun x => _id x <> new_oid_at w (length (trace w)))
    (docs_of d "blogpost") ->
  exists out w',
    create_post p w = (Ok out, w')
    /\ BlogPostOut.id out = oid_str (new_oid_at w (length (trace w)))
    /\ (BlogPost.published p = true ->
        BlogPost.published_at p = None ->
        BlogPostOut.published_at out = Some (utcnow_at w (ticks w)))
    /\ (BlogPost.published p = false ->
        BlogPostOut.published_at out = BlogPost.published_at p)
    /\ exists doc,
        stored w' "blogpost" = (docs_of d "blogpost" ++ [doc])%list
        /\ _id doc = new_oid_at w (length (trace w))
        /\ fields doc !! "published_at"
           = Some (opt_value VDate (BlogPostOut.published_at out)).
Proof.
  intros _ Hcover Hd Hf0 Hf1 Hfresh.
  set (o := new_oid_at w (length (trace w))) in *.
  set (at_ := if BlogPost.published p
              then match BlogPost.published_at p with
                   | Some t => Some t
                   | None => Some (utcnow_at w (ticks w))
                   end
              else BlogPost.published_at p).
  set (data := <["published_at" := opt_value VDate at_]> (model_dump p)).
  assert (Hdata :
    (if truthy (model_dump p !! "published")
        && negb (truthy (model_dump p !! "published_at"))
     then <["published_at" := VDate (utcnow_at w (ticks w))]> (model_dump p)
     else model_dump p) = data).
  { unfold data, at_.
    rewrite model_dump_published, model_dump_published_at.
    destruct (BlogPost.published p), (BlogPost.published_at p) as [t|] eqn:Hat;
      simpl; try reflexivity;
      symmetry; apply insert_id; now rewrite model_dump_published_at, Hat. }
  unfold create_post, bind, utcnow. rewrite Hdata.
  unfold create_document, data at 1. rewrite create_post_encodable, Hcover.
  fold data.
  rewrite (driver_runs _ _ _ d) by done. simpl. fold o.
  unfold find_one.
  set (d' := set_docs _ _ d).
  rewrite (driver_runs _ _ _ d'); simpl;
    [| done | now rewrite length_app, Nat.add_1_r].
  assert (docs_of d' "blogpost"
          = (docs_of d "blogpost" ++ [mkDoc o data])%list) as Hdocs.
  { unfold d', docs_of at 1. simpl. now rewrite lookup_insert_eq. }
  rewrite Hdocs, find_app;
    [| now apply no_match_id
     | rewrite matches_id; now apply bool_decide_eq_true].
  unfold data at 1. rewrite serialize_created by done.
  eexists _, _. split; [reflexivity|]. simpl.
  split; [done|]. split; [|split].
  - intros Hpub Hat. unfold at_. now rewrite Hpub, Hat.
  - intros Hpub. unfold at_. now rewrite Hpub.
  - exists (mkDoc o data). split; [|split]; [|done|].
    + unfold stored. simpl. exact Hdocs.
    + simpl. unfold data. now rewrite lookup_insert_eq.
Qed.

(** A payload with a cover image: the dictionary of [create_post] holds the
    Url object, the insert raises, and no post is added or changed. *)
Lemma create_post_with_cover (p : BlogPost.t) (u : string) (w : World) :
  BlogPost.cover_image_url p = Some u ->
  http_status (create_post p w).1 = 500
  /\ stored (create_post p w).2 "blogpost" = stored w "blogpost"
  /\ (is_Some (db w) ->
      fails_at w (length (trace w)) = None ->
      (create_post p w).1
      = Raise (PyExc "InvalidDocument" "cannot encode object")).
Proof.
  intros Hcover.
  assert (exists cls msg w',
            create_post p w = (Raise (PyExc cls msg), w')
            /\ db w' = db w
            /\ (is_Some (db w) ->
                fails_at w (length (trace w)) = None ->
                cls = "InvalidDocument" /\ msg = "cannot encode object"))
    as (cls & msg & w' & -> & Hdb & Hexc).
  { unfold create_post, utcnow, bind at 1 2.
    assert (forall now_,
      (if truthy (model_dump p !! "published")
          && negb (truthy (model_dump p !! "published_at"))
       then <["published_at" := VDate now_]> (model_dump p)
       else model_dump p)
      = <["published_at" :=
            opt_value VDate
              (if BlogPost.published p
               then match BlogPost.published_at p with
                    | Some t => Some t
                    | None => Some now_
                    end
               else BlogPost.published_at p)]> (model_dump p)) as Hdata.
    { intros now_. rewrite model_dump_published, model_dump_published_at.
      destruct (BlogPost.published p),
        (BlogPost.published_at p) as [t|] eqn:Hat;
        simpl; try reflexivity;
        symmetry; apply insert_id;
        now rewrite model_dump_published_at, Hat. }
    rewrite Hdata. unfold create_document.
    rewrite create_post_encodable, Hcover. unfold bind, raise.
    destruct (db w) as [d|] eqn:Hd.
    - destruct (fails_at w (length (trace w))) as [m|] eqn:Hf.
      + rewrite (driver_fails _ _ _ d m) by done.
        eexists _, _, _. split; [reflexivity|]. split; [done|].
        now intros _ [=].
      + rewrite (driver_runs _ _ _ d) by done. cbn [fst snd].
        eexists _, _, _. split; [reflexivity|]. split; [done|]. done.
    - rewrite driver_no_db by done.
      eexists _, _, _. split; [reflexivity|]. split; [done|].
      now intros [? ?]. }
  cbn [fst snd]. split; [done|]. split.
  - unfold stored. now rewrite Hdb.
  - intros H1 H2. destruct (Hexc H1 H2) as [-> ->]. done.
Qed.

(** ** Listing *)

Lemma date_le_trans a b c : date_le a b -> date_le b c -> date_le a c.
Proof. destruct a, b, c; simpl; try done. lia. Qed.

Lemma date_le_total a b : date_le a b \/ date_le b a.
Proof. destruct a, b; simpl; auto. lia. Qed.

(** The documents a cursor yields all match the filter. *)
Lemma cursor_matches q k direction limit (ds : list Doc) :
  Forall (fun d => matches q d = true)
    (cursor_limit limit (cursor_sort k direction (List.filter (matches q) ds))).
Proof.
  assert (Forall (fun d => matches q d = true) (List.filter (matches q) ds))
    as Hfilter.
  { apply Forall_forall. intros d Hd%list_elem_of_In.
    now apply filter_In in Hd. }
  assert (Forall (fun d => matches q d = true)
            (cursor_sort k direction (List.filter (matches q) ds))) as Hsort.
  { unfold cursor_sort.
    destruct (direction <? 0)%Z; now rewrite merge_sort_Permutation. }
  unfold cursor_limit. destruct (limit =? 0)%Z; [done|].
  now apply Forall_take.
Qed.

(** The documents a cursor yields are documents of the collection. *)
Lemma cursor_stored (P : Doc -> Prop) q k direction limit (ds : list Doc) :
  Forall P ds ->
  Forall P
    (cursor_limit limit (cursor_sort k direction (List.filter (matches q) ds))).
Proof.
  intros H.
  assert (Forall P (List.filter (matches q) ds)) as Hfilter.
  { rewrite Forall_forall in H |- *. intros d Hd%list_elem_of_In.
    apply filter_In in Hd as [Hd _]. now apply H, list_elem_of_In. }
  assert (Forall P (cursor_sort k direction (List.filter (matches q) ds)))
    as Hsort.
  { unfold cursor_sort.
    destruct (direction <? 0)%Z; now rewrite merge_sort_Permutation. }
  unfold cursor_limit. destruct (limit =? 0)%Z; [done|].
  now apply Forall_take.
Qed.

(** A descending cursor is sorted, newest first. *)
Lemma cursor_sorted k limit (ds : list Doc) :
  StronglySorted (fun d1 d2 => date_le (sort_value k d2) (sort_value k d1))
    (cursor_limit limit (cursor_sort k (-1) ds)).
Proof.
  set (R := fun d1 d2 : Doc => date_le (sort_value k d2) (sort_value k d1)).
  assert (Transitive R) as Htrans.
  { intros x y z Hxy Hyz. unfold R in *. eapply date_le_trans; eauto. }
  assert (Total R) as Htotal.
  { intros x y. unfold R. destruct (date_le_total (sort_value k y)
      (sort_value k x)); auto. }
  assert (StronglySorted R (cursor_sort k (-1) ds)) as Hsort.
  { unfold cursor_sort. simpl. apply StronglySorted_merge_sort; done. }
  unfold cursor_limit. destruct (limit =? 0)%Z; [done|].
  rewrite <- (take_drop (Z.abs_nat limit) (cursor_sort k (-1) ds)) in Hsort.
  now apply StronglySorted_app_1_l in Hsort.
Qed.

Lemma cursor_length k direction limit (ds : list Doc) :
  (1 <= limit)%Z ->
  (Z.of_nat (length (cursor_limit limit (cursor_sort k direction ds)))
   <= limit)%Z.
Proof.
  intros H. unfold cursor_limit.
  destruct (limit =? 0)%Z eqn:E; [lia|].
  rewrite length_take. lia.
Qed.

(** What a serialized post shows of its document. *)
Lemma serialize_post_fields (d : Doc) (out : BlogPostOut.t) (w w' : World) :
  serialize_post (Some d) w = (Ok out, w') ->
  as_list_str (get_default d "tags" (VList [])) = Ok (BlogPostOut.tags out)
  /\ as_bool (get_default d "published" (VBool false))
     = Ok (BlogPostOut.published out)
  /\ as_optional_datetime (doc_get d "created_at")
     = Ok (BlogPostOut.created_at out).
Proof.
  unfold serialize_post, bind, lift, ret. intros H.
  repeat match type of H with
  | context [match ?r with Ok _ => _ | Raise _ => _ end] =>
      destruct r eqn:?; try discriminate H
  end.
  injection H as <- _. simpl. auto.
Qed.

Lemma for_each_serialize (ds : list Doc) (outs : list BlogPostOut.t) w w' :
  for_each (fun d => serialize_post (Some d)) ds w = (Ok outs, w') ->
  Forall2 (fun d out => exists w1 w2, serialize_post (Some d) w1 = (Ok out, w2))
    ds outs.
Proof.
  revert outs w w'.
  induction ds as [|d ds IH]; intros outs w w'; cbn [for_each].
  - unfold ret. intros [= <- _]. constructor.
  - unfold bind at 1.
    destruct (serialize_post (Some d) w) as [[out|e] w1] eqn:Hd; [|done].
    unfold bind at 1.
    destruct (for_each _ ds w1) as [[outs'|e] w2] eqn:Hds; [|done].
    unfold ret. intros [= <- _]. constructor; eauto.
Qed.

Lemma for_each_serialize_world (ds : list Doc) w :
  (for_each (fun d => serialize_post (Some d)) ds w).2 = w.
Proof.
  induction ds as [|d ds IH]; cbn [for_each]; [done|].
  unfold bind at 1. pose proof (serialize_post_world (Some d) w) as Hd.
  destruct (serialize_post (Some d) w) as [[out|e] w1]; simpl in Hd; subst;
    [|done].
  unfold bind. destruct (for_each _ ds w) as [[outs|e] w2]; done.
Qed.

Lemma for_each_serialize_ok (ds : list Doc) w :
  Forall (fun x => forall w0, exists o, serialize_post (Some x) w0 = (Ok o, w0))
    ds ->
  exists outs, for_each (fun d => serialize_post (Some d)) ds w = (Ok outs, w).
Proof.
  induction 1 as [|d ds Hd _ [outs IH]]; cbn [for_each].
  - now exists [].
  - destruct (Hd w) as [o Ho]. exists (o :: outs).
    unfold bind. now rewrite Ho, IH.
Qed.

(** A document matching [{"published": b}] holds exactly [b]. *)
Lemma value_meets_bool b stored :
  value_meets (VBool b) stored = true -> stored = Some (VBool b).
Proof.
  destruct stored as [[| b' | s | t' | l | o | u]|]; simpl; intros H.
  all: try discriminate H.
  all: try (apply bool_decide_eq_true in H; congruence).
Qed.

(** A document matching [{"tags": {"$in": [t]}}] holds the string [t] or a
    list with [t] in it. *)
Lemma value_meets_str t stored :
  value_meets (VStr t) stored = true ->
  stored = Some (VStr t) \/ exists l, stored = Some (VList l) /\ t ∈ l.
Proof.
  destruct stored as [[| b | s | t' | l | o | u]|]; simpl; intros H.
  all: try discriminate H.
  all: try (apply bool_decide_eq_true in H; left; congruence).
  apply bool_decide_eq_true in H. right; eauto.
Qed.

Lemma matches_lookup q (d : Doc) k c :
  matches q d = true -> q !! k = Some c -> cond_holds c (doc_get d k) = true.
Proof.
  unfold matches. rewrite bool_decide_eq_true, map_Forall_lookup. eauto.
Qed.

(** [list_posts] is one [find] followed by the serialization of what it
    yields. *)
Lemma list_posts_find published tag limit w :
  exists q,
    list_posts published tag limit w
    = bind (find "blogpost" q "created_at" (-1) limit)
        (for_each (fun d => serialize_post (Some d))) w
    /\ (forall b, published = Some b ->
                  q !! "published" = Some (CEq (VBool b)))
    /\ (forall t, tag = Some t -> t <> "" ->
                  q !! "tags" = Some (CIn [VStr t])).
Proof.
  unfold list_posts. eexists. split; [reflexivity|]. split.
  - intros b ->. destruct tag as [t|]; [destruct (truthy (Some (VStr t)))|];
      rewrite ?lookup_insert_ne by done; now rewrite lookup_insert_eq.
  - intros t -> Ht. simpl.
    apply String.eqb_neq in Ht. rewrite Ht. simpl.
    now rewrite lookup_insert_eq.
Qed.

(** C4, as amended: the posts [list_posts] returns all have the requested
    [published] value when one is given, all carry the requested tag when a
    non-empty one is given, come newest first by [created_at] (posts
    without one last), and are at most [limit] when [limit] is at least 1.
    On a store that answers and whose posts serialize, it does return. *)
Theorem list_posts_sound (published : option bool) (tag : option string)
    (limit : Z) (w : World) :
  (forall outs w',
     list_posts published tag limit w = (Ok outs, w') ->
     (forall b, published = Some b ->
                Forall (fun out => BlogPostOut.published out = b) outs)
     /\ (forall t, tag = Some t -> t <> "" ->
                   Forall (fun out => t ∈ BlogPostOut.tags out) outs)
     /\ StronglySorted
          (fun o1 o2 =>
             date_le (BlogPostOut.created_at o2) (BlogPostOut.created_at o1))
          outs
     /\ (1 <= limit -> Z.of_nat (length outs) <= limit)%Z)
  /\ (forall d,
        db w = Some d ->
        fails_at w (length (trace w)) = None ->
        Forall (fun x => forall w0,
                  exists o, serialize_post (Some x) w0 = (Ok o, w0))
          (docs_of d "blogpost") ->
        exists outs w', list_posts published tag limit w = (Ok outs, w')).
Proof.
  destruct (list_posts_find published tag limit w) as (q & -> & Hpub & Htag).
  split.
  - intros outs w'. unfold bind, find.
    destruct (driver _ _ w) as [[ds|e] w1] eqn:Hfind; [|done].
    intros Hser%for_each_serialize.
    assert (exists d,
      ds = cursor_limit limit
             (cursor_sort "created_at" (-1)
                (List.filter (matches q) (docs_of d "blogpost")))) as [d ->].
    { revert Hfind. unfold driver. destruct (db w) as [d|]; [|done].
      destruct (fails_at w _); [done|]. intros [= <- _]. eauto. }
    clear Hfind.
    pose proof (cursor_matches q "created_at" (-1) limit
                  (docs_of d "blogpost")) as Hmatch.
    pose proof (cursor_sorted "created_at" limit
                  (List.filter (matches q) (docs_of d "blogpost"))) as Hsort.
    pose proof (cursor_length "created_at" (-1) limit
                  (List.filter (matches q) (docs_of d "blogpost"))) as Hlen.
    rewrite (Forall2_length _ _ _ Hser) in Hlen.
    set (ds := cursor_limit _ _) in *. clearbody ds.
    split; [|split; [|split]]; [| | |exact Hlen].
    + intros b Hb. specialize (Hpub b Hb). clear Hsort Hlen.
      induction Hser as [|x out ds outs (w1' & w2 & Hx) _ IH];
        [constructor|].
      apply Forall_cons in Hmatch as [Hm Hmatch].
      constructor; [|now apply IH].
      apply serialize_post_fields in Hx as (_ & Hp & _).
      pose proof (matches_lookup _ _ _ _ Hm Hpub) as Hc. simpl in Hc.
      apply value_meets_bool in Hc. unfold get_default in Hp.
      rewrite Hc in Hp. simpl in Hp. congruence.
    + intros t Ht Hne. specialize (Htag t Ht Hne). clear Hsort Hlen.
      induction Hser as [|x out ds outs (w1' & w2 & Hx) _ IH];
        [constructor|].
      apply Forall_cons in Hmatch as [Hm Hmatch].
      constructor; [|now apply IH].
      apply serialize_post_fields in Hx as (Htags & _ & _).
      pose proof (matches_lookup _ _ _ _ Hm Htag) as Hc. simpl in Hc.
      rewrite orb_false_r in Hc.
      unfold get_default in Htags.
      apply value_meets_str in Hc as [Hc|(l & Hc & Hl)];
        rewrite Hc in Htags; simpl in Htags; [done|congruence].
    + clear Hmatch Hlen.
      induction Hser as [|x out ds outs (w1' & w2 & Hx) Hrest IH];
        [constructor|].
      apply StronglySorted_inv in Hsort as [Hsort Hall].
      constructor; [now apply IH|].
      apply serialize_post_fields in Hx as (_ & _ & Hcx).
      clear IH Hsort. induction Hrest as [|y o2 ds outs (w3 & w4 & Hy) _ IH];
        [constructor|].
      apply Forall_cons in Hall as [Hxy Hall].
      constructor; [|now apply IH].
      apply serialize_post_fields in Hy as (_ & _ & Hcy).
      unfold sort_value in Hxy.
      destruct (doc_get x "created_at") as [[]|];
        destruct (doc_get y "created_at") as [[]|];
        simpl in *; try discriminate;
        injection Hcx as <-; injection Hcy as <-; exact Hxy.
  - intros d Hd Hf Hall. unfold bind, find.
    rewrite (driver_runs _ _ w d) by done. simpl.
    edestruct for_each_serialize_ok as [outs ->]; [|eauto].
    now apply cursor_stored.
Qed.

(** An empty [tag] is the same request as no [tag]: the handler makes the
    same call with the same filter, which has no condition on the tags. *)
Lemma list_posts_tag_falsy (published : option bool) (limit : Z)
    (w : World) :
  list_posts published (Some "") limit w = list_posts published None limit w
  /\ forall d,
      db w = Some d ->
      exists q,
        drop (length (trace w))
          (trace (list_posts published (Some "") limit w).2)
        = [Find "blogpost" q "created_at" (-1) limit]
        /\ q !! "tags" = None.
Proof.
  split; [reflexivity|].
  intros d Hd. unfold list_posts, bind, find. simpl.
  set (q := match published with Some _ => _ | None => _ end).
  exists q. split.
  - set (c := Find _ _ _ _ _). set (run := fun _ _ => _).
    pose proof (driver_trace c run w) as Htr. rewrite Hd in Htr.
    specialize (Htr (ltac:(eauto))).
    destruct (driver c run w) as [[ds|e] w1]; simpl in *.
    + now rewrite for_each_serialize_world, Htr, drop_app_length.
    + now rewrite Htr, drop_app_length.
  - unfold q. destruct published; [|done]. by rewrite lookup_insert_ne.
Qed.

(** ** Driver errors *)

(** Whatever the [try] block of [get_post] raises, a driver error
    included, is answered as a malformed identifier. *)
Lemma get_post_catches (post_id : string) (o : oid) (w : World)
    (d : Database) (msg : string) :
  ObjectId_of_str post_id = Some o ->
  db w = Some d ->
  fails_at w (length (trace w)) = Some msg ->
  (get_post post_id w).1 = Raise (HTTPException 400 "Invalid post id").
Proof.
  intros Ho Hd Hf. unfold get_post, bind, try_except, ObjectId.
  rewrite Ho. simpl. unfold find_one.
  now rewrite (driver_fails _ _ w d msg).
Qed.

(** The same error leaves [delete_post] and [update_post] as it is. *)
Lemma delete_post_propagates (post_id : string) (o : oid) (w : World)
    (d : Database) (msg : string) :
  ObjectId_of_str post_id = Some o ->
  db w = Some d ->
  fails_at w (length (trace w)) = Some msg ->
  (delete_post post_id w).1 = Raise (PyExc "PyMongoError" msg).
Proof.
  intros Ho Hd Hf. unfold delete_post, bind.
  rewrite (ObjectId_valid _ o) by done. unfold delete_one.
  now rewrite (driver_fails _ _ w d msg).
Qed.

Lemma update_post_propagates (post_id : string) (o : oid)
    (p : BlogPostUpdate.t) (w : World) (d : Database) (msg : string) :
  ObjectId_of_str post_id = Some o ->
  model_dump_exclude_unset p <> ∅ ->
  db w = Some d ->
  fails_at w (length (trace w)) = Some msg ->
  (update_post post_id p w).1 = Raise (PyExc "PyMongoError" msg).
Proof.
  intros Ho Hp Hd Hf. unfold update_post, bind.
  rewrite (ObjectId_valid _ o) by done.
  pose proof (update_data_ok p w Hp) as Hok. simpl in Hok. rewrite Hok.
  unfold update_one. now rewrite (driver_fails _ _ _ d msg).
Qed.

End Properties.

(** * Runs on the example worlds *)

Section Runs.
Import Examples.

(** C10: an empty [tag] is the same request as no [tag]: the handler makes
    the same call, with a filter that has no condition on the tags; and a
    post that does not carry the empty tag is returned from
    [Examples.world]. *)
Theorem list_posts_empty_tag :
  (forall (B : Bson) (published : option bool) (limit : Z) (w : World),
     list_posts published (Some "") limit w
     = list_posts published None limit w
     /\ forall d,
         db w = Some d ->
         exists q,
           drop (length (trace w))
             (trace (list_posts published (Some "") limit w).2)
           = [Find "blogpost" q "created_at" (-1) limit]
           /\ q !! "tags" = None)
  /\ exists outs out,
      (list_posts None (Some "") 50 world).1 = Ok outs
      /\ out ∈ outs
      /\ "" ∉ BlogPostOut.tags out.
Proof.
  split; [intros B; apply list_posts_tag_falsy|].
  eexists _, _. split; [vm_compute; reflexivity|]. split.
  - apply list_elem_of_here.
  - simpl. apply not_elem_of_nil.
Qed.

(** C4 as stated fails twice.  With the empty tag given, a post without
    that tag is returned; and with [limit] -1 the result is longer than
    [limit]. *)
Lemma list_posts_counterexample :
  (exists outs,
     (list_posts None (Some "") 50 world).1 = Ok outs
     /\ ~ Forall (fun out => "" ∈ BlogPostOut.tags out) outs)
  /\ (exists outs,
        (list_posts None None (-1) world).1 = Ok outs
        /\ ~ (Z.of_nat (length outs) <= -1)%Z).
Proof.
  split; eexists; (split; [vm_compute; reflexivity|]).
  - intros H. apply Forall_cons in H as [H _]. simpl in H.
    now apply not_elem_of_nil in H.
  - simpl. lia.
Qed.

(** C5 as stated fails for an update with an empty body: the identifier is
    well formed, no stored post has it, and the answer is 400, not 404. *)
Lemma update_post_counterexample :
  ObjectId_of_str id3 = Some id3
  /\ Forall (fun doc => _id doc <> id3) (stored world "blogpost")
  /\ http_status (update_post id3 BlogPostUpdate.unset world).1 = 400
  /\ http_status (update_post id3 BlogPostUpdate.unset world).1 <> 404.
Proof.
  split; [reflexivity|]. split; [|split]; [|reflexivity|vm_compute; lia].
  repeat constructor; intros H; vm_compute in H; discriminate H.
Qed.

(** C3, the failing request: a valid payload, published and without
    [published_at], that carries a cover image.  [model_dump()] leaves the
    Url object in the dictionary, the insert raises, the answer is a 500
    and no post is created; the same payload without the cover image is
    created with the clock reading as [published_at]. *)
Theorem create_post_cover_image :
  BlogPost.valid (payload (Some "https://example.com/a.png"))
  /\ (create_post (payload (Some "https://example.com/a.png")) world).1
     = Raise (PyExc "InvalidDocument" "cannot encode object")
  /\ http_status
       (create_post (payload (Some "https://example.com/a.png")) world).1
     = 500
  /\ _id <$> stored
               (create_post (payload (Some "https://example.com/a.png"))
                  world).2 "blogpost"
     = [id1; id2]
  /\ match (create_post (payload None) world).1 with
     | Ok out => BlogPostOut.published_at out = Some 1000
     | Raise _ => False
     end.
Proof.
  split; [split; simpl; lia|].
  split; [vm_compute; reflexivity|].
  split; [vm_compute; reflexivity|].
  split; [vm_compute; reflexivity|].
  vm_compute. reflexivity.
Qed.

(** C7, the failing request: a driver error inside [get_post], and a missing
    database, are answered with 400 "Invalid post id" although the
    identifier is well formed; the same error is a 500 in [update_post],
    [delete_post], [create_post] and [list_posts]. *)
Theorem get_post_driver_error :
  ObjectId_of_str id1 = Some id1
  /\ (get_post id1 world_failing).1
     = Raise (HTTPException 400 "Invalid post id")
  /\ (get_post id1 world_no_db).1
     = Raise (HTTPException 400 "Invalid post id")
  /\ http_status (update_post id1 (body_published true) world_failing).1
     = 500
  /\ http_status (delete_post id1 world_failing).1 = 500
  /\ http_status
       (create_post (BlogPost.new "Hi There" "hi-there" "body" "Jo")
          world_failing).1 = 500
  /\ http_status (list_posts None None 50 world_failing).1 = 500.
Proof. repeat split; vm_compute; reflexivity. Qed.

(** C9, the failing request: an update whose body is [{"tags": null}]
    stores null under ["tags"]; the update itself, and every later read
    of that post, then fail in [serialize_post] with a 500. *)
Theorem update_post_tags_null :
  let r := update_post id2 body_tags_null world in
  (fun doc => (_id doc, fields doc !! "tags"))
    <$> (stored r.2 "blogpost" !! 1%nat) = Some (id2, Some VNull)
  /\ http_status r.1 = 500
  /\ http_status (get_post id2 r.2).1 = 500
  /\ http_status (list_posts None None 50 r.2).1 = 500.
Proof. repeat split; vm_compute; reflexivity. Qed.

(** ** The theorems at concrete requests *)

Lemma update_post_published_at_witness :
  (exists upd,
     applied_fields id2 (body_published true) world = Some upd
     /\ upd !! "published_at" = Some (VDate 1000))
  /\ (exists upd,
        applied_fields id2 (body_published_at true 7) world = Some upd
        /\ upd !! "published_at" = Some (VDate 7)).
Proof.
  assert (ObjectId_of_str id2 = Some id2) as Ho by reflexivity.
  assert (is_Some (db world)) as Hdb by (eexists; reflexivity).
  split.
  - destruct (update_post_published_at (B:=hex_oid) id2 id2
                (body_published true) world Ho Hdb) as (H & _ & _).
    apply H; reflexivity.
  - destruct (update_post_published_at (B:=hex_oid) id2 id2
                (body_published_at true 7) world Ho Hdb) as (_ & _ & H).
    apply (H (Some true) (Some 7)); reflexivity.
Defined.

Lemma update_post_frame_witness :
  exists doc',
    stored (update_post id2 (body_published true) world).2 "blogpost"
    = [post id1 "First post" ["coq"; "foo"] true (Some 100); doc']
    /\ fields doc' !! "published" = Some (VBool true)
    /\ fields doc' !! "title" = Some (VStr "Second post").
Proof.
  assert (ObjectId_of_str id2 = Some id2) as Ho by reflexivity.
  assert (model_dump_exclude_unset (body_published true) <> ∅) as Hp.
  { intros H%model_dump_exclude_unset_empty. discriminate H. }
  assert (Forall (fun x : Doc => _id x <> id2)
            [post id1 "First post" ["coq"; "foo"] true (Some 100)]) as Hpre.
  { repeat constructor. intros H. vm_compute in H. discriminate H. }
  destruct (update_post_frame (B:=hex_oid) id2 (body_published true) world)
    as [_ Hhit].
  destruct (Hhit id2 (mkDatabase (Some "blog") {["blogpost" := posts]})
              [post id1 "First post" ["coq"; "foo"] true (Some 100)] []
              (post id2 "Second post" [] false (Some 200))
              Ho eq_refl eq_refl Hp eq_refl Hpre eq_refl)
    as (doc' & Hstored & _ & Hk).
  exists doc'. split; [exact Hstored|]. split.
  - rewrite (Hk "published"). reflexivity.
  - rewrite (Hk "title"). reflexivity.
Defined.

Lemma create_post_without_cover_witness :
  exists out w',
    create_post (BlogPost.mk "Hi There" "hi-there" None "body" "Jo" None []
                   true None) world = (Ok out, w')
    /\ BlogPostOut.published_at out = Some 1000.
Proof.
  assert (BlogPost.valid (BlogPost.mk "Hi There" "hi-there" None "body" "Jo"
                            None [] true None)) as Hv.
  { split; simpl; lia. }
  assert (Forall (fun x : Doc => _id x <> id3) posts) as Hfresh.
  { repeat constructor; intros H; vm_compute in H; discriminate H. }
  destruct (create_post_without_cover (B:=hex_oid) _ world
              (mkDatabase (Some "blog") {["blogpost" := posts]})
              Hv eq_refl eq_refl eq_refl eq_refl Hfresh)
    as (out & w' & Hrun & _ & Hat & _).
  exists out, w'. split; [exact Hrun|]. apply Hat; reflexivity.
Defined.

Lemma list_posts_sound_witness :
  exists outs,
    (list_posts (Some true) (Some "foo") 1 world).1 = Ok outs
    /\ Forall (fun out => BlogPostOut.published out = true) outs
    /\ Forall (fun out => "foo" ∈ BlogPostOut.tags out) outs
    /\ (Z.of_nat (length outs) <= 1)%Z.
Proof.
  set (r := list_posts (Some true) (Some "foo") 1 world).
  set (outs := [BlogPostOut.mk id1 "First post" "a-slug" None "body" "Jo"
                  None ["coq"; "foo"] true (Some 100) (Some 100) None]).
  assert (r.1 = Ok outs) as Hrun by (vm_compute; reflexivity).
  destruct (list_posts_sound (B:=hex_oid) (Some true) (Some "foo") 1 world)
    as [Hs _].
  destruct (Hs outs r.2) as (Hp & Ht & _ & Hl).
  { rewrite <- Hrun. apply surjective_pairing. }
  exists outs. split; [exact Hrun|].
  split; [apply Hp; reflexivity|].
  split; [apply Ht; [reflexivity|discriminate]|].
  apply Hl. lia.
Defined.

Lemma identifier_errors_witness :
  http_status (get_post "not-an-id" world).1 = 400
  /\ http_status (get_post id3 world).1 = 404
  /\ http_status (update_post id3 (body_published true) world).1 = 404
  /\ http_status (delete_post id3 world).1 = 404.
Proof.
  destruct (identifier_errors (B:=hex_oid) "not-an-id" world) as [H400 _].
  destruct (H400 eq_refl) as (Hget & _ & _).
  destruct (identifier_errors (B:=hex_oid) id3 world) as [_ H404].
  assert (Forall (fun x : Doc => _id x <> id3) posts) as Hnone.
  { repeat constructor; intros H; vm_compute in H; discriminate H. }
  destruct (H404 id3 (mkDatabase (Some "blog") {["blogpost" := posts]})
              eq_refl eq_refl eq_refl Hnone) as (Hg & Hu & Hd).
  split; [exact Hget|]. split; [exact Hg|]. split; [|exact Hd].
  apply Hu. intros H%model_dump_exclude_unset_empty. discriminate H.
Defined.

Lemma update_post_no_data_witness :
  exists detail,
    update_post id1 BlogPostUpdate.unset world
    = (Raise (HTTPException 400 detail), world).
Proof. apply (update_post_no_data (B:=hex_oid)). reflexivity. Defined.

End Runs.

(** * Further properties of the handlers *)

Section Further.
Context `{B : Bson}.
Local Open Scope py_scope.

(** ** Reads *)

(** A driver call whose action returns the database it was given changes
    neither the database nor the clock. *)
Lemma driver_read_only {A} (c : call) (run : oid -> Database -> A * Database)
    w :
  (forall o d, (run o d).2 = d) ->
  db (driver c run w).2 = db w /\ ticks (driver c run w).2 = ticks w.
Proof.
  intros Hrun. unfold driver. destruct (db w) as [d|] eqn:Hd; [|done].
  destruct (fails_at w _); [done|].
  specialize (Hrun (new_oid_at w (length (trace w))) d).
  destruct (run _ d) as [a d']. simpl in *. now subst.
Qed.

(** The result of [serialize_post] does not depend on the world. *)
Lemma serialize_post_pure doc w w0 :
  (serialize_post doc w).1 = (serialize_post doc w0).1.
Proof.
  destruct doc as [d|]; [|done]. unfold serialize_post, bind, lift, ret.
  repeat match goal with
  | |- context [match ?r with Ok _ => _ | Raise _ => _ end] =>
      destruct r; simpl; try done
  end.
Qed.

(** X1: the reading handlers ([get_post], [list_posts], [test_database])
    never change the database or read the clock, whatever they are given
    and however they end. *)
Theorem reads_change_nothing (w : World) :
  (forall post_id,
     db (get_post post_id w).2 = db w
     /\ ticks (get_post post_id w).2 = ticks w)
  /\ (forall published tag limit,
        db (list_posts published tag limit w).2 = db w
        /\ ticks (list_posts published tag limit w).2 = ticks w)
  /\ db (test_database w).2 = db w
  /\ ticks (test_database w).2 = ticks w.
Proof.
  split; [|split].
  - intros post_id. unfold get_post, bind, try_except, ObjectId, raise, ret.
    destruct (ObjectId_of_str post_id) as [o|]; [|done].
    unfold find_one. set (c := FindOne _ _). set (run := fun _ _ => _).
    pose proof (driver_read_only c run w (fun _ _ => eq_refl)) as Hro.
    destruct (driver c run w) as [[[doc|]|e] w1]; cbn [fst snd] in *;
      rewrite ?serialize_post_world; done.
  - intros published tag limit.
    destruct (list_posts_find published tag limit w) as (q & -> & _).
    unfold bind, find. set (c := Find _ _ _ _ _). set (run := fun _ _ => _).
    pose proof (driver_read_only c run w (fun _ _ => eq_refl)) as Hro.
    destruct (driver c run w) as [[ds|e] w1]; cbn [fst snd] in *;
      rewrite ?for_each_serialize_world; done.
  - unfold test_database, try_except, bind, list_collection_names, ret.
    destruct (db w) as [d|] eqn:Hd; [|cbn [fst snd]; now rewrite Hd].
    set (c := ListCollectionNames). set (run := fun _ _ => _).
    pose proof (driver_read_only c run w (fun _ _ => eq_refl)) as Hro.
    rewrite Hd in Hro.
    destruct (driver c run w) as [[ds|e] w1]; cbn [fst snd] in *; done.
Qed.

(** What [get_post] answers when a stored post has the identifier. *)
Lemma get_post_hit post_id o w d (pre post : list Doc) doc :
  ObjectId_of_str post_id = Some o ->
  db w = Some d ->
  fails_at w (length (trace w)) = None ->
  docs_of d "blogpost" = (pre ++ doc :: post)%list ->
  Forall (fun x => _id x <> o) pre ->
  _id doc = o ->
  (get_post post_id w).1 = (serialize_post (Some doc) w).1.
Proof.
  intros Ho Hd Hf Hdocs Hpre Hdoc.
  unfold get_post, bind, try_except, ObjectId, ret. rewrite Ho.
  unfold find_one. rewrite (driver_runs _ _ w d) by done. cbn [fst snd].
  rewrite Hdocs, find_app;
    [| now apply no_match_id
     | rewrite matches_id; now apply bool_decide_eq_true].
  apply serialize_post_pure.
Qed.

(** Every field of a serialized post, read back from its document. *)
Lemma serialize_post_inv (d : Doc) (out : BlogPostOut.t) (w : World) :
  (serialize_post (Some d) w).1 = Ok out ->
  BlogPostOut.id out = oid_str (_id d)
  /\ as_str (doc_get d "title") = Ok (BlogPostOut.title out)
  /\ as_str (doc_get d "slug") = Ok (BlogPostOut.slug out)
  /\ as_optional_str (doc_get d "excerpt") = Ok (BlogPostOut.excerpt out)
  /\ as_str (doc_get d "content") = Ok (BlogPostOut.content out)
  /\ as_str (doc_get d "author") = Ok (BlogPostOut.author out)
  /\ as_optional_str (doc_get d "cover_image_url")
     = Ok (BlogPostOut.cover_image_url out)
  /\ as_list_str (get_default d "tags" (VList []))
     = Ok (BlogPostOut.tags out)
  /\ as_bool (get_default d "published" (VBool false))
     = Ok (BlogPostOut.published out)
  /\ as_optional_datetime (doc_get d "published_at")
     = Ok (BlogPostOut.published_at out)
  /\ as_optional_datetime (doc_get d "created_at")
     = Ok (BlogPostOut.created_at out)
  /\ as_optional_datetime (doc_get d "updated_at")
     = Ok (BlogPostOut.updated_at out).
Proof.
  unfold serialize_post, bind, lift, ret. intros H.
  repeat match type of H with
  | context [match ?r with Ok _ => _ | Raise _ => _ end] =>
      destruct r eqn:?; try discriminate H
  end.
  simpl in H. injection H as <-. simpl. repeat split; assumption.
Qed.

(** X2: a well-formed identifier that a stored post has is answered by
    [get_post] with the serialization of the first such post; a post
    returned carries that identifier. *)
Theorem get_post_found (post_id : string) (o : oid) (w : World)
    (d : Database) (pre post : list Doc) (doc : Doc) :
  ObjectId_of_str post_id = Some o ->
  db w = Some d ->
  fails_at w (length (trace w)) = None ->
  docs_of d "blogpost" = (pre ++ doc :: post)%list ->
  Forall (fun x => _id x <> o) pre ->
  _id doc = o ->
  (get_post post_id w).1 = (serialize_post (Some doc) w).1
  /\ forall out, (get_post post_id w).1 = Ok out ->
                 BlogPostOut.id out = oid_str o.
Proof.
  intros Ho Hd Hf Hdocs Hpre Hdoc.
  pose proof (get_post_hit post_id o w d pre post doc Ho Hd Hf Hdocs Hpre
                Hdoc) as Heq.
  split; [exact Heq|]. intros out. rewrite Heq.
  intros (Hid & _)%serialize_post_inv. now rewrite Hid, Hdoc.
Qed.

(** ** Deletion *)

Lemma delete_first_app q (pre post : list Doc) d :
  Forall (fun x => matches q x = false) pre ->
  matches q d = true ->
  delete_first q (pre ++ d :: post)%list = Some (pre ++ post)%list.
Proof.
  induction 1 as [|x pre Hx _ IH]; intros Hd; simpl.
  - now rewrite Hd.
  - now rewrite Hx, IH.
Qed.

Lemma stored_same w w' d :
  db w = Some d -> db w' = Some d ->
  stored w' "blogpost" = stored w "blogpost".
Proof. intros H H'. unfold stored. now rewrite H, H'. Qed.

Lemma get_post_missing post_id o w d :
  ObjectId_of_str post_id = Some o ->
  db w = Some d ->
  fails_at w (length (trace w)) = None ->
  Forall (fun doc => _id doc <> o) (docs_of d "blogpost") ->
  (get_post post_id w).1 = Raise (HTTPException 404 "Post not found").
Proof.
  intros Ho Hd Hf Hnone%no_match_id.
  unfold get_post, bind, try_except, ObjectId. rewrite Ho. simpl.
  unfold find_one. rewrite (driver_runs _ _ w d) by done. simpl.
  now rewrite find_none.
Qed.

Lemma delete_post_missing post_id o w d :
  ObjectId_of_str post_id = Some o ->
  db w = Some d ->
  fails_at w (length (trace w)) = None ->
  Forall (fun doc => _id doc <> o) (docs_of d "blogpost") ->
  (delete_post post_id w).1 = Raise (HTTPException 404 "Post not found").
Proof.
  intros Ho Hd Hf Hnone%no_match_id.
  unfold delete_post, bind. rewrite (ObjectId_valid _ o) by done.
  unfold delete_one. rewrite (driver_runs _ _ w d) by done. simpl.
  now rewrite delete_first_none.
Qed.

(** The world after a [delete_post] that finds its post. *)
Lemma delete_post_hit post_id o w d (pre post : list Doc) doc :
  ObjectId_of_str post_id = Some o ->
  db w = Some d ->
  fails_at w (length (trace w)) = None ->
  docs_of d "blogpost" = (pre ++ doc :: post)%list ->
  Forall (fun x => _id x <> o) pre ->
  _id doc = o ->
  delete_post post_id w
  = (Ok {["success" := VBool true]},
     set_db (Some (set_docs "blogpost" (pre ++ post) d))
       (set_trace
          (trace w ++ [DeleteOne "blogpost" {["_id" := CEq (VOid o)]}]) w)).
Proof.
  intros Ho Hd Hf Hdocs Hpre Hdoc.
  unfold delete_post, bind. rewrite (ObjectId_valid _ o) by done.
  unfold delete_one. rewrite (driver_runs _ _ w d) by done. simpl.
  rewrite Hdocs, delete_first_app;
    [| now apply no_match_id
     | rewrite matches_id; now apply bool_decide_eq_true].
  reflexivity.
Qed.

(** X3: [delete_post] answers success exactly when it removed a post: the
    first post of the identifier goes and every other post stays, in
    order; whenever the answer is not success, the posts are as they
    were. *)
Theorem delete_post_removes (post_id : string) (w : World) :
  ((delete_post post_id w).1 <> Ok {["success" := VBool true]} ->
   stored (delete_post post_id w).2 "blogpost" = stored w "blogpost")
  /\ forall (o : oid) (d : Database) (pre post : list Doc) (doc : Doc),
      ObjectId_of_str post_id = Some o ->
      db w = Some d ->
      fails_at w (length (trace w)) = None ->
      docs_of d "blogpost" = (pre ++ doc :: post)%list ->
      Forall (fun x => _id x <> o) pre ->
      _id doc = o ->
      (delete_post post_id w).1 = Ok {["success" := VBool true]}
      /\ stored (delete_post post_id w).2 "blogpost" = (pre ++ post)%list.
Proof.
  split.
  - unfold delete_post, bind.
    destruct (ObjectId_of_str post_id) as [o|] eqn:Ho;
      [rewrite (ObjectId_valid _ o) by done
      |now rewrite ObjectId_invalid by done].
    unfold delete_one.
    destruct (db w) as [d|] eqn:Hd; [|now rewrite driver_no_db by done].
    destruct (fails_at w (length (trace w))) as [msg|] eqn:Hf.
    { rewrite (driver_fails _ _ w d msg) by done. intros _.
      now apply (stored_same w _ d). }
    rewrite (driver_runs _ _ w d) by done. simpl.
    destruct (delete_first _ (docs_of d "blogpost")); simpl; [done|].
    intros _. now apply (stored_same w _ d).
  - intros o d pre post doc Ho Hd Hf Hdocs Hpre Hdoc.
    rewrite (delete_post_hit post_id o w d pre post doc) by done.
    split; [done|]. eapply stored_set_docs. reflexivity.
Qed.

(** X4: once the only post of an identifier is deleted, both [get_post]
    and a second [delete_post] on that identifier answer 404. *)
Theorem delete_post_then_gone (post_id : string) (o : oid) (w : World)
    (d : Database) (pre post : list Doc) (doc : Doc) :
  ObjectId_of_str post_id = Some o ->
  db w = Some d ->
  fails_at w (length (trace w)) = None ->
  fails_at w (S (length (trace w))) = None ->
  docs_of d "blogpost" = (pre ++ doc :: post)%list ->
  Forall (fun x => _id x <> o) pre ->
  _id doc = o ->
  Forall (fun x => _id x <> o) post ->
  let w' := (delete_post post_id w).2 in
  (get_post post_id w').1 = Raise (HTTPException 404 "Post not found")
  /\ (delete_post post_id w').1 = Raise (HTTPException 404 "Post not found").
Proof.
  intros Ho Hd Hf Hf' Hdocs Hpre Hdoc Hpost. simpl.
  rewrite (delete_post_hit post_id o w d pre post doc) by done. simpl.
  set (w' := set_db _ _).
  assert (Forall (fun x => _id x <> o)
            (docs_of (set_docs "blogpost" (pre ++ post) d) "blogpost"))
    as Hnone.
  { unfold docs_of. simpl. rewrite lookup_insert_eq. simpl.
    now apply Forall_app. }
  assert (fails_at w' (length (trace w')) = None) as Hfw.
  { unfold w'. simpl. now rewrite length_app, Nat.add_1_r. }
  split.
  - now apply (get_post_missing post_id o w' _ Ho eq_refl).
  - now apply (delete_post_missing post_id o w' _ Ho eq_refl).
Qed.

(** ** Updates *)

(** The result and the world of an [update_post] that finds its post. *)
Lemma update_post_hit post_id o p w d (pre post : list Doc) doc upd w1 :
  ObjectId_of_str post_id = Some o ->
  db w = Some d ->
  fails_at w (length (trace w)) = None ->
  fails_at w (S (length (trace w))) = None ->
  update_data p w = (Ok upd, w1) ->
  docs_of d "blogpost" = (pre ++ doc :: post)%list ->
  Forall (fun x => _id x <> o) pre ->
  _id doc = o ->
  exists w3,
    update_post post_id p w
    = ((serialize_post (Some (apply_set upd doc)) w).1, w3)
    /\ db w3
       = Some (set_docs "blogpost" (pre ++ apply_set upd doc :: post) d)
    /\ length (trace w3) = S (S (length (trace w)))
    /\ fails_at w3 = fails_at w.
Proof.
  intros Ho Hd Hf Hf' Hu Hdocs Hpre Hdoc.
  assert (model_dump_exclude_unset p <> ∅) as Hp.
  { intros He. rewrite update_data_empty in Hu; done. }
  pose proof (update_data_ok p w Hp) as Hok. simpl in Hok.
  rewrite Hu in Hok. injection Hok as Hupd Hw1.
  assert (db w1 = Some d /\ trace w1 = trace w /\ fails_at w1 = fails_at w)
    as (Hd1 & Ht1 & Hf1).
  { now rewrite Hw1. }
  unfold update_post, bind. rewrite (ObjectId_valid _ o) by done.
  rewrite Hu. unfold update_one.
  rewrite (driver_runs _ _ w1 d); [|done|now rewrite Hf1, Ht1].
  cbn [fst snd].
  rewrite Hdocs, update_first_app;
    [| now apply no_match_id
     | rewrite matches_id; now apply bool_decide_eq_true].
  cbn [fst snd]. change (1 =? 0)%Z with false. cbn iota.
  unfold find_one.
  set (d' := set_docs _ _ d). set (w2 := set_db (Some d') _).
  rewrite (driver_runs _ _ w2 d');
    [|done|unfold w2; simpl; now rewrite Hf1, Ht1, length_app, Nat.add_1_r].
  cbn [fst snd].
  assert (docs_of d' "blogpost" = (pre ++ apply_set upd doc :: post)%list)
    as Hdocs'.
  { unfold d', docs_of. simpl. now rewrite lookup_insert_eq. }
  rewrite Hdocs', find_app;
    [| now apply no_match_id
     | rewrite matches_id; now apply bool_decide_eq_true].
  eexists. split; [|split; [|split]].
  - rewrite (surjective_pairing (serialize_post _ _)).
    rewrite serialize_post_world.
    now rewrite (serialize_post_pure _ _ w).
  - reflexivity.
  - simpl. rewrite !length_app, Ht1. simpl. lia.
  - simpl. exact Hf1.
Qed.

(** X5: an update that finds its post answers with the serialization of
    the post as it is stored afterwards; that post carries the clock
    reading under [updated_at], and so does any post returned. *)
Theorem update_post_returns_stored (post_id : string) (o : oid)
    (p : BlogPostUpdate.t) (w : World) (d : Database)
    (pre post : list Doc) (doc : Doc) :
  ObjectId_of_str post_id = Some o ->
  db w = Some d ->
  fails_at w (length (trace w)) = None ->
  fails_at w (S (length (trace w))) = None ->
  model_dump_exclude_unset p <> ∅ ->
  docs_of d "blogpost" = (pre ++ doc :: post)%list ->
  Forall (fun x => _id x <> o) pre ->
  _id doc = o ->
  let now_ :=
    utcnow_at w match BlogPostUpdate.published p with
                | Some (Some true) => S (ticks w)
                | _ => ticks w
                end in
  exists doc',
    stored (update_post post_id p w).2 "blogpost"
    = (pre ++ doc' :: post)%list
    /\ (update_post post_id p w).1 = (serialize_post (Some doc') w).1
    /\ fields doc' !! "updated_at" = Some (VDate now_)
    /\ forall out,
        (update_post post_id p w).1 = Ok out ->
        BlogPostOut.id out = oid_str o
        /\ BlogPostOut.updated_at out = Some now_.
Proof.
  intros Ho Hd Hf Hf' Hp Hdocs Hpre Hdoc now_.
  pose proof (update_data_ok p w Hp) as Hok. simpl in Hok.
  set (upd := <["updated_at" := _]> _) in Hok.
  set (w1 := set_ticks _ w) in Hok.
  destruct (update_post_hit post_id o p w d pre post doc upd w1)
    as (w3 & Hrun & Hdb & _); try done.
  assert (fields (apply_set upd doc) !! "updated_at" = Some (VDate now_))
    as Hupd.
  { simpl. rewrite lookup_union, (update_data_lookup p w w1 upd Hok).
    destruct (model_dump_exclude_unset_lookup p)
      as (_ & _ & _ & _ & _ & _ & _ & _ & _ & Hua).
    simpl in Hua. rewrite Hua. simpl.
    now destruct (fields doc !! "updated_at"). }
  exists (apply_set upd doc). rewrite Hrun. cbn [fst snd].
  split; [now apply (stored_set_docs w3 d)|]. split; [done|].
  split; [exact Hupd|].
  intros out (Hid & Hrest)%serialize_post_inv.
  split; [now rewrite Hid; simpl; rewrite Hdoc|].
  destruct Hrest as (_ & _ & _ & _ & _ & _ & _ & _ & _ & _ & Hu).
  change (doc_get (apply_set upd doc) "updated_at")
    with (fields (apply_set upd doc) !! "updated_at") in Hu.
  rewrite Hupd in Hu. simpl in Hu. congruence.
Qed.

(** X6: what [get_post] answers right after an update that found its post
    is what the update answered. *)
Theorem update_post_then_get (post_id : string) (o : oid)
    (p : BlogPostUpdate.t) (w : World) (d : Database)
    (pre post : list Doc) (doc : Doc) :
  ObjectId_of_str post_id = Some o ->
  db w = Some d ->
  fails_at w (length (trace w)) = None ->
  fails_at w (S (length (trace w))) = None ->
  fails_at w (S (S (length (trace w)))) = None ->
  model_dump_exclude_unset p <> ∅ ->
  docs_of d "blogpost" = (pre ++ doc :: post)%list ->
  Forall (fun x => _id x <> o) pre ->
  _id doc = o ->
  (get_post post_id (update_post post_id p w).2).1
  = (update_post post_id p w).1.
Proof.
  intros Ho Hd Hf Hf' Hf'' Hp Hdocs Hpre Hdoc.
  pose proof (update_data_ok p w Hp) as Hok. simpl in Hok.
  set (upd := <["updated_at" := _]> _) in Hok.
  set (w1 := set_ticks _ w) in Hok.
  destruct (update_post_hit post_id o p w d pre post doc upd w1)
    as (w3 & Hrun & Hdb & Hlen & Hfails); try done.
  rewrite Hrun. cbn [fst snd].
  rewrite (get_post_hit post_id o w3
             (set_docs "blogpost" (pre ++ apply_set upd doc :: post) d)
             pre post (apply_set upd doc)); try done.
  - apply serialize_post_pure.
  - now rewrite Hfails, Hlen.
  - unfold docs_of. simpl. now rewrite lookup_insert_eq.
Qed.

(** ** Creation *)

(** The dictionary [create_post] inserts. *)
Lemma create_post_data (p : BlogPost.t) (now_ : datetime) :
  (if truthy (model_dump p !! "published")
      && negb (truthy (model_dump p !! "published_at"))
   then <["published_at" := VDate now_]> (model_dump p)
   else model_dump p)
  = <["published_at" :=
        opt_value VDate
          (if BlogPost.published p
           then match BlogPost.published_at p with
                | Some t => Some t
                | None => Some now_
                end
           else BlogPost.published_at p)]> (model_dump p).
Proof.
  rewrite model_dump_published, model_dump_published_at.
  destruct (BlogPost.published p), (BlogPost.published_at p) as [t|] eqn:Hat;
    simpl; try reflexivity;
    symmetry; apply insert_id; now rewrite model_dump_published_at, Hat.
Qed.

(** The result and the world of a [create_post] without cover image on a
    store that answers and generates a new identifier. *)
Lemma create_post_run (p : BlogPost.t) (w : World) (d : Database) :
  BlogPost.cover_image_url p = None ->
  db w = Some d ->
  fails_at w (length (trace w)) = None ->
  fails_at w (S (length (trace w))) = None ->
  Forall (fun x => _id x <> new_oid_at w (length (trace w)))
    (docs_of d "blogpost") ->
  exists out doc w3,
    create_post p w = (Ok out, w3)
    /\ BlogPostOut.id out = oid_str (new_oid_at w (length (trace w)))
    /\ _id doc = new_oid_at w (length (trace w))
    /\ (forall w0, (serialize_post (Some doc) w0).1 = Ok out)
    /\ db w3
       = Some (set_docs "blogpost" (docs_of d "blogpost" ++ [doc]) d)
    /\ length (trace w3) = S (S (length (trace w)))
    /\ fails_at w3 = fails_at w.
Proof.
  intros Hcover Hd Hf0 Hf1 Hfresh.
  set (o := new_oid_at w (length (trace w))) in *.
  unfold create_post, bind, utcnow. rewrite create_post_data.
  unfold create_document. rewrite create_post_encodable, Hcover.
  set (data := <["published_at" := _]> (model_dump p)).
  rewrite (driver_runs _ _ _ d) by done. simpl. fold o.
  unfold find_one.
  set (d' := set_docs _ _ d).
  rewrite (driver_runs _ _ _ d'); simpl;
    [| done | now rewrite length_app, Nat.add_1_r].
  assert (docs_of d' "blogpost"
          = (docs_of d "blogpost" ++ [mkDoc o data])%list) as Hdocs.
  { unfold d', docs_of at 1. simpl. now rewrite lookup_insert_eq. }
  rewrite Hdocs, find_app;
    [| now apply no_match_id
     | rewrite matches_id; now apply bool_decide_eq_true].
  eexists _, (mkDoc o data), _.
  split; [unfold data at 1; rewrite serialize_created by done; reflexivity|].
  split; [reflexivity|]. split; [reflexivity|]. split.
  { intros w0. exact (f_equal fst (serialize_created o p _ w0 Hcover)). }
  split; [reflexivity|]. split; [|reflexivity].
  simpl. rewrite !length_app. simpl. lia.
Qed.

(** X7: for a payload without cover image, on a store that answers, with
    an identifier that is new and reads back from its text, the post
    [create_post] returns is the post [get_post] returns for the
    identifier in it. *)
Theorem create_post_then_get (p : BlogPost.t) (w : World) (d : Database) :
  BlogPost.cover_image_url p = None ->
  db w = Some d ->
  fails_at w (length (trace w)) = None ->
  fails_at w (S (length (trace w))) = None ->
  fails_at w (S (S (length (trace w)))) = None ->
  Forall (fun x => _id x <> new_oid_at w (length (trace w)))
    (docs_of d "blogpost") ->
  ObjectId_of_str (oid_str (new_oid_at w (length (trace w))))
  = Some (new_oid_at w (length (trace w))) ->
  exists out,
    (create_post p w).1 = Ok out
    /\ (get_post (BlogPostOut.id out) (create_post p w).2).1 = Ok out.
Proof.
  intros Hcover Hd Hf0 Hf1 Hf2 Hfresh Hround.
  destruct (create_post_run p w d Hcover Hd Hf0 Hf1 Hfresh)
    as (out & doc & w3 & Hrun & Hid & Hdoc & Hser & Hdb & Hlen & Hfails).
  exists out. rewrite Hrun. cbn [fst snd]. split; [done|].
  rewrite Hid.
  rewrite (get_post_hit _ (new_oid_at w (length (trace w))) w3
             (set_docs "blogpost" (docs_of d "blogpost" ++ [doc]) d)
             (docs_of d "blogpost") [] doc); try done.
  - now rewrite Hfails, Hlen.
  - unfold docs_of at 1. simpl. now rewrite lookup_insert_eq.
Qed.

(** X8: under the same conditions (no cover image, a store that answers,
    a new identifier that reads back from its text), deleting the post
    just created, by the identifier returned, succeeds and leaves the
    posts as they were before the creation. *)
Theorem create_post_then_delete (p : BlogPost.t) (w : World)
    (d : Database) :
  BlogPost.cover_image_url p = None ->
  db w = Some d ->
  fails_at w (length (trace w)) = None ->
  fails_at w (S (length (trace w))) = None ->
  fails_at w (S (S (length (trace w)))) = None ->
  Forall (fun x => _id x <> new_oid_at w (length (trace w)))
    (docs_of d "blogpost") ->
  ObjectId_of_str (oid_str (new_oid_at w (length (trace w))))
  = Some (new_oid_at w (length (trace w))) ->
  exists out,
    (create_post p w).1 = Ok out
    /\ (delete_post (BlogPostOut.id out) (create_post p w).2).1
       = Ok {["success" := VBool true]}
    /\ stored (delete_post (BlogPostOut.id out) (create_post p w).2).2
         "blogpost"
       = stored w "blogpost".
Proof.
  intros Hcover Hd Hf0 Hf1 Hf2 Hfresh Hround.
  destruct (create_post_run p w d Hcover Hd Hf0 Hf1 Hfresh)
    as (out & doc & w3 & Hrun & Hid & Hdoc & Hser & Hdb & Hlen & Hfails).
  exists out. rewrite Hrun. cbn [fst snd]. split; [done|].
  rewrite Hid.
  rewrite (delete_post_hit _ (new_oid_at w (length (trace w))) w3
             (set_docs "blogpost" (docs_of d "blogpost" ++ [doc]) d)
             (docs_of d "blogpost") [] doc); try done.
  - cbn [fst snd]. split; [done|].
    unfold stored. simpl. rewrite Hd. unfold docs_of at 1. simpl.
    rewrite lookup_insert_eq. simpl. now rewrite app_nil_r.
  - now rewrite Hfails, Hlen.
  - unfold docs_of at 1. simpl. now rewrite lookup_insert_eq.
Qed.

(** X9: whatever happens, [create_post] leaves the stored posts as they
    are and adds at most one, at the end; the post added holds the title
    and the [published] flag of the payload, and a [published_at] the
    payload carries is stored as it is. *)
Theorem create_post_appends (p : BlogPost.t) (w : World) :
  exists added,
    stored (create_post p w).2 "blogpost"
    = (stored w "blogpost" ++ added)%list
    /\ (length added <= 1)%nat
    /\ Forall
         (fun doc =>
            fields doc !! "title" = Some (VStr (BlogPost.title p))
            /\ fields doc !! "published"
               = Some (VBool (BlogPost.published p))
            /\ forall t, BlogPost.published_at p = Some t ->
                         fields doc !! "published_at" = Some (VDate t))
         added.
Proof.
  unfold create_post, bind, utcnow. rewrite create_post_data.
  set (data := <["published_at" := _]> (model_dump p)).
  unfold create_document.
  destruct (bson_encodable data) eqn:Henc.
  - destruct (db w) as [d|] eqn:Hd.
    + destruct (fails_at w (length (trace w))) as [msg|] eqn:Hf.
      * rewrite (driver_fails _ _ _ d msg) by done. exists [].
        rewrite app_nil_r. split; [|split; [simpl; lia|constructor]].
        apply (stored_same w _ d); done.
      * rewrite (driver_runs _ _ _ d) by done. cbn [fst snd].
        set (o := new_oid_at _ _). set (w2 := set_db _ _).
        pose proof (find_one_serialize_db "blogpost"
                      {["_id" := CEq (VOid o)]} w2) as Hdb.
        unfold bind in Hdb. exists [mkDoc o data].
        split; [|split; [simpl; lia|]].
        -- erewrite stored_set_docs; [|rewrite Hdb; reflexivity].
           unfold stored. simpl. now rewrite Hd.
        -- constructor; [|constructor]. cbn [fields].
           split; [reflexivity|]. split; [reflexivity|].
           intros t Ht. unfold data. rewrite Ht, lookup_insert_eq.
           now destruct (BlogPost.published p).
    + rewrite driver_no_db by done. exists []. rewrite app_nil_r.
      split; [|split; [simpl; lia|constructor]].
      unfold stored. simpl. now rewrite Hd.
  - exists []. rewrite app_nil_r.
    split; [|split; [simpl; lia|constructor]].
    unfold bind, raise.
    destruct (db w) as [d|] eqn:Hd.
    + destruct (fails_at w (length (trace w))) as [msg|] eqn:Hf.
      * rewrite (driver_fails _ _ _ d msg) by done.
        apply (stored_same w _ d); done.
      * rewrite (driver_runs _ _ _ d) by done. cbn [fst snd].
        apply (stored_same w _ d); done.
    + rewrite driver_no_db by done. unfold stored. simpl. now rewrite Hd.
Qed.

(** ** Serialization *)

Lemma as_raise (e : exn) (v : option value) :
  (as_str v = Raise e \/ as_optional_str v = Raise e
   \/ as_list_str v = Raise e \/ as_bool v = Raise e
   \/ as_optional_datetime v = Raise e) ->
  e = PyExc "ValidationError" "BlogPostOut".
Proof.
  unfold as_str, as_optional_str, as_list_str, as_bool,
    as_optional_datetime, invalid.
  destruct v as [[]|]; intros [H|[H|[H|[H|H]]]]; congruence.
Qed.

(** [serialize_post] on a document ends in one of two ways. *)
Lemma serialize_post_cases (d : Doc) (w : World) :
  (exists out, (serialize_post (Some d) w).1 = Ok out)
  \/ (serialize_post (Some d) w).1
     = Raise (PyExc "ValidationError" "BlogPostOut").
Proof.
  unfold serialize_post, bind, lift, ret.
  repeat match goal with
  | |- context [match ?r with Ok _ => _ | Raise _ => _ end] =>
      let H := fresh "H" in
      destruct r eqn:H;
      [|right; simpl; f_equal; eapply as_raise; eauto 6]
  end.
  left. eauto.
Qed.

(** X10: a document without ["tags"] serializes with the empty list and
    one without ["published"] with [false]; a null under ["tags"],
    ["published"] or ["title"], and a missing ["title"], make
    [serialize_post] raise [ValidationError] instead. *)
Theorem serialize_post_defaults (d : Doc) (w : World) :
  (fields d !! "tags" = None ->
   forall out, (serialize_post (Some d) w).1 = Ok out ->
               BlogPostOut.tags out = [])
  /\ (fields d !! "published" = None ->
      forall out, (serialize_post (Some d) w).1 = Ok out ->
                  BlogPostOut.published out = false)
  /\ (fields d !! "tags" = Some VNull
      \/ fields d !! "published" = Some VNull
      \/ fields d !! "title" = Some VNull
      \/ fields d !! "title" = None ->
      (serialize_post (Some d) w).1
      = Raise (PyExc "ValidationError" "BlogPostOut")).
Proof.
  split; [|split].
  - intros Ht out
      (_ & _ & _ & _ & _ & _ & _ & H & _)%serialize_post_inv.
    unfold get_default in H.
    change (doc_get d "tags") with (fields d !! "tags") in H.
    rewrite Ht in H. simpl in H. congruence.
  - intros Hp out
      (_ & _ & _ & _ & _ & _ & _ & _ & H & _)%serialize_post_inv.
    unfold get_default in H.
    change (doc_get d "published") with (fields d !! "published") in H.
    rewrite Hp in H. simpl in H. congruence.
  - intros Hbad.
    destruct (serialize_post_cases d w) as [[out Hout]|Hraise]; [|done].
    exfalso.
    apply serialize_post_inv
      in Hout as (_ & Htitle & _ & _ & _ & _ & _ & Htags & Hpub & _).
    unfold get_default in Htags, Hpub.
    change (doc_get d "tags") with (fields d !! "tags") in Htags.
    change (doc_get d "published") with (fields d !! "published") in Hpub.
    change (doc_get d "title") with (fields d !! "title") in Htitle.
    destruct Hbad as [H|[H|[H|H]]];
      rewrite H in *; simpl in *; discriminate.
Qed.

(** X11: [serialize_post] reads the identifier and eleven keys of a
    document and nothing else: two documents that agree on those
    serialize alike. *)
Theorem serialize_post_reads (d1 d2 : Doc) (w : World) :
  _id d1 = _id d2 ->
  Forall (fun k => fields d1 !! k = fields d2 !! k)
    ["title"; "slug"; "excerpt"; "content"; "author"; "cover_image_url";
     "tags"; "published"; "published_at"; "created_at"; "updated_at"] ->
  serialize_post (Some d1) w = serialize_post (Some d2) w.
Proof.
  intros Hid Hk.
  repeat match goal with
  | H : Forall _ (_ :: _) |- _ => apply Forall_cons in H as [? H]
  end.
  unfold serialize_post, get_default.
  change (doc_get d1 "title") with (fields d1 !! "title").
  change (doc_get d1 "slug") with (fields d1 !! "slug").
  change (doc_get d1 "excerpt") with (fields d1 !! "excerpt").
  change (doc_get d1 "content") with (fields d1 !! "content").
  change (doc_get d1 "author") with (fields d1 !! "author").
  change (doc_get d1 "cover_image_url")
    with (fields d1 !! "cover_image_url").
  change (doc_get d1 "tags") with (fields d1 !! "tags").
  change (doc_get d1 "published") with (fields d1 !! "published").
  change (doc_get d1 "published_at") with (fields d1 !! "published_at").
  change (doc_get d1 "created_at") with (fields d1 !! "created_at").
  change (doc_get d1 "updated_at") with (fields d1 !! "updated_at").
  repeat match goal with
  | H : fields d1 !! _ = _ |- _ => rewrite H; clear H
  end.
  now rewrite Hid.
Qed.

(** ** Diagnostics *)

(** X12: what [test_database] reports.  With a database that answers: the
    working status, its name, whether [DATABASE_URL] is set and non-empty,
    and the first ten collection names.  With a database whose listing
    fails: still "Connected", and no collections.  Without a database: no
    driver call, and [database_url] stays null whatever the environment
    holds. *)
Theorem test_database_report (w : World) :
  (forall d,
     db w = Some d ->
     fails_at w (length (trace w)) = None ->
     exists resp,
       (test_database w).1 = Ok resp
       /\ resp !! "backend" = Some (VStr "✅ Running")
       /\ resp !! "database" = Some (VStr "✅ Connected & Working")
       /\ resp !! "connection_status" = Some (VStr "Connected")
       /\ resp !! "database_name"
          = Some (VStr (default "✅ Connected" (name d)))
       /\ resp !! "database_url"
          = Some (VStr match DATABASE_URL w with
                       | Some s => if String.eqb s "" then "❌ Not Set"
                                   else "✅ Set"
                       | None => "❌ Not Set"
                       end)
       /\ resp !! "collections"
          = Some (VList (take 10 (map_to_list (collections d)).*1)))
  /\ (forall d msg,
        db w = Some d ->
        fails_at w (length (trace w)) = Some msg ->
        exists resp,
          (test_database w).1 = Ok resp
          /\ resp !! "backend" = Some (VStr "✅ Running")
          /\ resp !! "connection_status" = Some (VStr "Connected")
          /\ resp !! "database_name"
             = Some (VStr (default "✅ Connected" (name d)))
          /\ resp !! "collections" = Some (VList []))
  /\ (db w = None ->
      exists resp,
        test_database w = (Ok resp, w)
        /\ resp !! "backend" = Some (VStr "✅ Running")
        /\ resp !! "connection_status" = Some (VStr "Not Connected")
        /\ resp !! "database_url" = Some VNull
        /\ resp !! "database_name" = Some VNull
        /\ resp !! "collections" = Some (VList [])).
Proof.
  split; [|split].
  - intros d Hd Hf. unfold test_database, try_except at 1. rewrite Hd.
    unfold try_except, bind, list_collection_names.
    rewrite (driver_runs _ _ w d) by done. cbn [fst snd]. unfold ret.
    eexists. split; [reflexivity|].
    repeat split; try by simplify_map_eq.
    rewrite lookup_insert_ne by done. rewrite lookup_insert_ne by done.
    rewrite lookup_insert_ne by done. rewrite lookup_insert_ne by done.
    rewrite lookup_insert_eq. do 2 f_equal.
    destruct (DATABASE_URL w) as [u|]; [|done]. simpl.
    now destruct (String.eqb u "").
  - intros d msg Hd Hf. unfold test_database, try_except at 1. rewrite Hd.
    unfold try_except, bind, list_collection_names.
    rewrite (driver_fails _ _ w d msg) by done. cbn [fst snd]. unfold ret.
    eexists. split; [reflexivity|].
    repeat split; by simplify_map_eq.
  - intros Hd. unfold test_database, try_except. rewrite Hd. unfold ret.
    eexists. split; [reflexivity|].
    repeat split; by simplify_map_eq.
Qed.

(** ** Errors that are not the client's *)

(** X13: a driver error in the first call of [list_posts], [update_post]
    or [delete_post] leaves the handler as it is (a 500) and leaves the
    database as it was. *)
Theorem driver_errors_propagate (w : World) (d : Database) (msg : string) :
  db w = Some d ->
  fails_at w (length (trace w)) = Some msg ->
  (forall published tag limit,
     (list_posts published tag limit w).1 = Raise (PyExc "PyMongoError" msg)
     /\ db (list_posts published tag limit w).2 = Some d)
  /\ (forall post_id o p,
        ObjectId_of_str post_id = Some o ->
        model_dump_exclude_unset p <> ∅ ->
        (update_post post_id p w).1 = Raise (PyExc "PyMongoError" msg)
        /\ db (update_post post_id p w).2 = Some d)
  /\ (forall post_id o,
        ObjectId_of_str post_id = Some o ->
        (delete_post post_id w).1 = Raise (PyExc "PyMongoError" msg)
        /\ db (delete_post post_id w).2 = Some d).
Proof.
  intros Hd Hf. split; [|split].
  - intros published tag limit.
    destruct (list_posts_find published tag limit w) as (q & -> & _).
    unfold bind, find. now rewrite (driver_fails _ _ w d msg).
  - intros post_id o p Ho Hp. unfold update_post, bind.
    rewrite (ObjectId_valid _ o) by done.
    pose proof (update_data_ok p w Hp) as Hok. simpl in Hok. rewrite Hok.
    unfold update_one. now rewrite (driver_fails _ _ _ d msg).
  - intros post_id o Ho. unfold delete_post, bind.
    rewrite (ObjectId_valid _ o) by done. unfold delete_one.
    now rewrite (driver_fails _ _ w d msg).
Qed.

(** X14: without a database handle [list_posts], [update_post] and
    [delete_post] end in a 500 before any driver call; the emptiness of
    an update and the form of an identifier are still checked first. *)
Theorem handlers_without_database (w : World) :
  db w = None ->
  (forall published tag limit,
     http_status (list_posts published tag limit w).1 = 500
     /\ trace (list_posts published tag limit w).2 = trace w)
  /\ (forall post_id p,
        http_status (update_post post_id p w).1
        = match ObjectId_of_str post_id with
          | None => 400
          | Some _ =>
              if decide (model_dump_exclude_unset p = ∅) then 400 else 500
          end
        /\ trace (update_post post_id p w).2 = trace w)
  /\ (forall post_id,
        http_status (delete_post post_id w).1
        = match ObjectId_of_str post_id with
          | None => 400
          | Some _ => 500
          end
        /\ trace (delete_post post_id w).2 = trace w).
Proof.
  intros Hd. split; [|split].
  - intros published tag limit.
    destruct (list_posts_find published tag limit w) as (q & -> & _).
    unfold bind, find. now rewrite driver_no_db.
  - intros post_id p. unfold update_post, bind.
    destruct (ObjectId_of_str post_id) as [o|] eqn:Ho;
      [rewrite (ObjectId_valid _ o) by done
      |now rewrite ObjectId_invalid by done].
    case_decide as Hp; [now rewrite update_data_empty|].
    pose proof (update_data_ok p w Hp) as Hok. simpl in Hok. rewrite Hok.
    unfold update_one. now rewrite driver_no_db.
  - intros post_id. unfold delete_post, bind.
    destruct (ObjectId_of_str post_id) as [o|] eqn:Ho;
      [rewrite (ObjectId_valid _ o) by done
      |now rewrite ObjectId_invalid by done].
    unfold delete_one. now rewrite driver_no_db.
Qed.

(** ** Listing *)

Lemma filter_all {A} (f : A -> bool) (l : list A) :
  (forall x, f x = true) -> List.filter f l = l.
Proof.
  intros Hf. induction l as [|x l IH]; simpl; [done|]. now rewrite Hf, IH.
Qed.

(** The filter [{"published": b}] selects the documents that hold exactly
    [b]. *)
Lemma matches_published (b : bool) (x : Doc) :
  matches (<["published" := CEq (VBool b)]> ∅) x
  = bool_decide (fields x !! "published" = Some (VBool b)).
Proof.
  unfold matches. apply bool_decide_ext.
  rewrite insert_empty, map_Forall_singleton.
  change (doc_get x "published") with (fields x !! "published").
  split; [apply value_meets_bool|].
  intros ->. simpl. now apply bool_decide_eq_true.
Qed.

Lemma cursor_limit_all (limit : Z) (ds : list Doc) :
  (Z.of_nat (length ds) <= limit)%Z -> cursor_limit limit ds = ds.
Proof.
  intros H. unfold cursor_limit. destruct (limit =? 0)%Z; [done|].
  apply take_ge. lia.
Qed.

Lemma serialized_ids (ds : list Doc) (outs : list BlogPostOut.t) :
  Forall2 (fun d out => exists w1 w2, serialize_post (Some d) w1 = (Ok out, w2))
    ds outs ->
  BlogPostOut.id <$> outs = (fun x => oid_str (_id x)) <$> ds.
Proof.
  induction 1 as [|x out ds outs (w1 & w2 & Hx) _ IH]; [done|].
  rewrite !fmap_cons, IH. f_equal.
  apply (f_equal fst) in Hx. cbn [fst] in Hx.
  now apply serialize_post_inv in Hx as (Hid & _).
Qed.

(** X15: when the limit is at least the number of posts selected (every
    post, or with [published] given the posts that hold that value), a
    listing without tag returns each of them exactly once. *)
Theorem list_posts_complete (published : option bool) (limit : Z)
    (w w' : World) (d : Database) (outs : list BlogPostOut.t) :
  db w = Some d ->
  list_posts published None limit w = (Ok outs, w') ->
  let selected :=
    match published with
    | Some b =>
        List.filter
          (fun x => bool_decide (fields x !! "published" = Some (VBool b)))
          (docs_of d "blogpost")
    | None => docs_of d "blogpost"
    end in
  (Z.of_nat (length selected) <= limit)%Z ->
  BlogPostOut.id <$> outs ≡ₚ (fun x => oid_str (_id x)) <$> selected.
Proof.
  intros Hd Hrun selected Hlen.
  unfold list_posts, bind, find in Hrun. cbn [truthy fmap option_fmap] in Hrun.
  set (q := match published with Some _ => _ | None => _ end) in Hrun.
  destruct (fails_at w (length (trace w))) as [msg|] eqn:Hf.
  { rewrite (driver_fails _ _ w d msg) in Hrun by done. discriminate Hrun. }
  rewrite (driver_runs _ _ w d) in Hrun by done. cbn [fst snd] in Hrun.
  apply for_each_serialize, serialized_ids in Hrun. rewrite Hrun.
  assert (List.filter (matches q) (docs_of d "blogpost") = selected) as ->.
  { unfold q, selected. destruct published as [b|].
    - apply filter_ext. intros x. apply matches_published.
    - apply filter_all. intros x. unfold matches.
      apply bool_decide_eq_true. apply map_Forall_empty. }
  assert (cursor_sort "created_at" (-1) selected ≡ₚ selected) as Hperm.
  { unfold cursor_sort. simpl. apply merge_sort_Permutation. }
  rewrite cursor_limit_all; [now rewrite Hperm|].
  now rewrite Hperm.
Qed.

(** X16: [update_post] never adds or removes a post, whatever the request
    and however it ends: the identifiers stored are the same, in the same
    order (an update that matches nothing inserts nothing). *)
Theorem update_post_keeps_posts (post_id : string) (p : BlogPostUpdate.t)
    (w : World) :
  _id <$> stored (update_post post_id p w).2 "blogpost"
  = _id <$> stored w "blogpost".
Proof.
  destruct (update_post_stored post_id p w)
    as [->|(o & upd & w1 & ds' & _ & Hup & ->)]; [done|].
  apply update_first_frame in Hup. symmetry.
  induction Hup as [|old new ds ds' [->| ->] _ IH]; [done| |];
    now rewrite !fmap_cons, IH.
Qed.

End Further.

(** ** The further properties at concrete requests *)

Section FurtherRuns.
Import Examples.

Lemma get_post_found_witness :
  (get_post id2 world).1
  = (serialize_post (Some (post id2 "Second post" [] false (Some 200)))
       world).1.
Proof.
  assert (Forall (fun x : Doc => _id x <> id2)
            [post id1 "First post" ["coq"; "foo"] true (Some 100)]) as Hpre.
  { repeat constructor. intros H. vm_compute in H. discriminate H. }
  apply (get_post_found (B:=hex_oid) id2 id2 world
           (mkDatabase (Some "blog") {["blogpost" := posts]})
           [post id1 "First post" ["coq"; "foo"] true (Some 100)] []
           (post id2 "Second post" [] false (Some 200))
           eq_refl eq_refl eq_refl eq_refl Hpre eq_refl).
Defined.

Lemma delete_post_removes_witness :
  (delete_post id2 world).1 = Ok {["success" := VBool true]}
  /\ stored (delete_post id2 world).2 "blogpost"
     = [post id1 "First post" ["coq"; "foo"] true (Some 100)].
Proof.
  assert (Forall (fun x : Doc => _id x <> id2)
            [post id1 "First post" ["coq"; "foo"] true (Some 100)]) as Hpre.
  { repeat constructor. intros H. vm_compute in H. discriminate H. }
  destruct (delete_post_removes (B:=hex_oid) id2 world) as [_ Hhit].
  apply (Hhit id2 (mkDatabase (Some "blog") {["blogpost" := posts]})
           [post id1 "First post" ["coq"; "foo"] true (Some 100)] []
           (post id2 "Second post" [] false (Some 200))
           eq_refl eq_refl eq_refl eq_refl Hpre eq_refl).
Defined.

Lemma delete_post_then_gone_witness :
  (get_post id2 (delete_post id2 world).2).1
  = Raise (HTTPException 404 "Post not found")
  /\ (delete_post id2 (delete_post id2 world).2).1
     = Raise (HTTPException 404 "Post not found").
Proof.
  assert (Forall (fun x : Doc => _id x <> id2)
            [post id1 "First post" ["coq"; "foo"] true (Some 100)]) as Hpre.
  { repeat constructor. intros H. vm_compute in H. discriminate H. }
  apply (delete_post_then_gone (B:=hex_oid) id2 id2 world
           (mkDatabase (Some "blog") {["blogpost" := posts]})
           [post id1 "First post" ["coq"; "foo"] true (Some 100)] []
           (post id2 "Second post" [] false (Some 200))
           eq_refl eq_refl eq_refl eq_refl eq_refl Hpre eq_refl
           (Forall_nil_2 _)).
Defined.

Lemma update_post_returns_stored_witness :
  exists doc',
    stored (update_post id2 (body_published true) world).2 "blogpost"
    = [post id1 "First post" ["coq"; "foo"] true (Some 100); doc']
    /\ (update_post id2 (body_published true) world).1
       = (serialize_post (Some doc') world).1
    /\ fields doc' !! "updated_at" = Some (VDate 1001).
Proof.
  assert (model_dump_exclude_unset (body_published true) <> ∅) as Hp.
  { intros H%model_dump_exclude_unset_empty. discriminate H. }
  assert (Forall (fun x : Doc => _id x <> id2)
            [post id1 "First post" ["coq"; "foo"] true (Some 100)]) as Hpre.
  { repeat constructor. intros H. vm_compute in H. discriminate H. }
  destruct (update_post_returns_stored (B:=hex_oid) id2 id2
              (body_published true) world
              (mkDatabase (Some "blog") {["blogpost" := posts]})
              [post id1 "First post" ["coq"; "foo"] true (Some 100)] []
              (post id2 "Second post" [] false (Some 200))
              eq_refl eq_refl eq_refl eq_refl Hp eq_refl Hpre eq_refl)
    as (doc' & Hstored & Hres & Hupd & _).
  exists doc'. split; [exact Hstored|]. split; [exact Hres|exact Hupd].
Defined.

Lemma update_post_then_get_witness :
  (get_post id2 (update_post id2 (body_published true) world).2).1
  = (update_post id2 (body_published true) world).1.
Proof.
  assert (model_dump_exclude_unset (body_published true) <> ∅) as Hp.
  { intros H%model_dump_exclude_unset_empty. discriminate H. }
  assert (Forall (fun x : Doc => _id x <> id2)
            [post id1 "First post" ["coq"; "foo"] true (Some 100)]) as Hpre.
  { repeat constructor. intros H. vm_compute in H. discriminate H. }
  apply (update_post_then_get (B:=hex_oid) id2 id2 (body_published true)
           world (mkDatabase (Some "blog") {["blogpost" := posts]})
           [post id1 "First post" ["coq"; "foo"] true (Some 100)] []
           (post id2 "Second post" [] false (Some 200))
           eq_refl eq_refl eq_refl eq_refl eq_refl Hp eq_refl Hpre eq_refl).
Defined.

Lemma create_post_then_get_witness :
  exists out,
    (create_post (BlogPost.new "Hi There" "hi-there" "body" "Jo") world).1
    = Ok out
    /\ (get_post (BlogPostOut.id out)
          (create_post (BlogPost.new "Hi There" "hi-there" "body" "Jo")
             world).2).1 = Ok out.
Proof.
  assert (Forall (fun x : Doc => _id x <> id3) posts) as Hfresh.
  { repeat constructor; intros H; vm_compute in H; discriminate H. }
  apply (create_post_then_get (B:=hex_oid)
           (BlogPost.new "Hi There" "hi-there" "body" "Jo") world
           (mkDatabase (Some "blog") {["blogpost" := posts]})
           eq_refl eq_refl eq_refl eq_refl eq_refl Hfresh eq_refl).
Defined.

Lemma create_post_then_delete_witness :
  exists out,
    (create_post (BlogPost.new "Hi There" "hi-there" "body" "Jo") world).1
    = Ok out
    /\ (delete_post (BlogPostOut.id out)
          (create_post (BlogPost.new "Hi There" "hi-there" "body" "Jo")
             world).2).1 = Ok {["success" := VBool true]}
    /\ stored
         (delete_post (BlogPostOut.id out)
            (create_post (BlogPost.new "Hi There" "hi-there" "body" "Jo")
               world).2).2 "blogpost"
       = stored world "blogpost".
Proof.
  assert (Forall (fun x : Doc => _id x <> id3) posts) as Hfresh.
  { repeat constructor; intros H; vm_compute in H; discriminate H. }
  apply (create_post_then_delete (B:=hex_oid)
           (BlogPost.new "Hi There" "hi-there" "body" "Jo") world
           (mkDatabase (Some "blog") {["blogpost" := posts]})
           eq_refl eq_refl eq_refl eq_refl eq_refl Hfresh eq_refl).
Defined.

Lemma serialize_post_defaults_witness :
  exists out,
    (serialize_post
       (Some (mkDoc (B:=hex_oid) id1
                (delete "tags"
                   (fields (post id1 "First post" ["coq"] false None)))))
       world).1 = Ok out
    /\ BlogPostOut.tags out = [].
Proof.
  set (doc := mkDoc (B:=hex_oid) id1
                (delete "tags"
                   (fields (post id1 "First post" ["coq"] false None)))).
  set (out := BlogPostOut.mk id1 "First post" "a-slug" None "body" "Jo"
                None [] false None None None).
  assert ((serialize_post (Some doc) world).1 = Ok out) as Hrun
    by (vm_compute; reflexivity).
  destruct (serialize_post_defaults (B:=hex_oid) doc world) as (H & _).
  exists out. split; [exact Hrun|]. apply (H eq_refl out Hrun).
Defined.

Lemma serialize_post_reads_witness :
  serialize_post
    (Some (mkDoc (B:=hex_oid) id1
             (<["views" := VStr "12"]>
                (fields (post id1 "First post" [] false None)))))
    world
  = serialize_post (Some (post id1 "First post" [] false None)) world.
Proof.
  apply (serialize_post_reads (B:=hex_oid)); [reflexivity|].
  repeat constructor.
Defined.

Lemma test_database_report_witness :
  exists resp,
    (test_database world).1 = Ok resp
    /\ resp !! "database" = Some (VStr "✅ Connected & Working")
    /\ resp !! "database_name" = Some (VStr "blog").
Proof.
  destruct (test_database_report (B:=hex_oid) world) as (H & _).
  destruct (H (mkDatabase (Some "blog") {["blogpost" := posts]})
              eq_refl eq_refl)
    as (resp & Hrun & _ & Hdb & _ & Hname & _).
  exists resp. split; [exact Hrun|]. split; [exact Hdb|exact Hname].
Defined.

Lemma driver_errors_propagate_witness :
  (list_posts None None 50 world_failing).1
  = Raise (PyExc "PyMongoError" "connection refused")
  /\ (delete_post id1 world_failing).1
     = Raise (PyExc "PyMongoError" "connection refused").
Proof.
  destruct (driver_errors_propagate (B:=hex_oid) world_failing
              (mkDatabase (Some "blog") {["blogpost" := posts]})
              "connection refused" eq_refl eq_refl) as (Hl & _ & Hdel).
  split; [apply Hl|]. apply (Hdel id1 id1 eq_refl).
Defined.

Lemma handlers_without_database_witness :
  http_status (list_posts None None 50 world_no_db).1 = 500
  /\ http_status (delete_post id1 world_no_db).1 = 500.
Proof.
  destruct (handlers_without_database (B:=hex_oid) world_no_db eq_refl)
    as (Hl & _ & Hdel).
  split; [apply Hl|]. apply (Hdel id1).
Defined.

Lemma list_posts_complete_witness :
  exists outs,
    (list_posts (Some true) None 50 world).1 = Ok outs
    /\ BlogPostOut.id <$> outs ≡ₚ [id1].
Proof.
  set (outs := [BlogPostOut.mk id1 "First post" "a-slug" None "body" "Jo"
                  None ["coq"; "foo"] true (Some 100) (Some 100) None]).
  set (r := list_posts (Some true) None 50 world).
  assert (r.1 = Ok outs) as Hrun by (vm_compute; reflexivity).
  exists outs. split; [exact Hrun|].
  apply (list_posts_complete (B:=hex_oid) (Some true) 50 world r.2
           (mkDatabase (Some "blog") {["blogpost" := posts]}) outs eq_refl).
  - rewrite <- Hrun. apply surjective_pairing.
  - vm_compute. discriminate.
Defined.

End FurtherRuns.
